(** * hubspot-local-dev-lib: the account configuration store and its thin clients

    A shallow embedding of
    - [config/CLIConfiguration.ts] (class [CLIConfiguration]),
    - [http/getRequestOptions.ts] ([getRequestOptions]),
    - [lib/archive.ts] ([extractZipArchive] and its helpers),
    - [lib/trackUsage.ts] ([trackUsage]),
    - [api/fileTransport.ts] and [api/localDevAuth.ts],
    and the properties of these functions.

    Conventions of the embedding.
    - A JavaScript string is the list of its UTF-16 code units.
    - A JavaScript number that holds an account id or a portal id is an
      integer ([Z]); fractions are outside the model. What [parseInt] returns,
      and with it a timeout, is a [Number]: an integer that is a double,
      negative zero, an infinity or [NaN].
    - [undefined] and [null] are [None]; an optional field is an [option].
    - Logging ([debug], [makeTypedLogger]) has no effect on any value the
      functions compute and is left out. *)

From Stdlib Require Import ZArith NArith String Ascii List Bool Lia.
From stdpp Require Import base option list gmap strings.

Set Default Proof Using "Type".

(** ** JavaScript values *)

Abbreviation jsstring := (list N).

(** A string literal of the source, as code units. *)
Definition str (s : string) : jsstring :=
  (fun a => N_of_ascii a) <$> list_ascii_of_string s.

(** [ToBoolean]: the test behind [if (x)], [!x], [x || y] and [x && y]. *)
Class Truthy (A : Type) := truthy : A -> bool.
Global Hint Mode Truthy ! : typeclass_instances.

Global Instance truthy_bool : Truthy bool := fun b => b.
Global Instance truthy_Z : Truthy Z := fun n => negb (n =? 0)%Z.
Global Instance truthy_jsstring : Truthy jsstring :=
  fun s => match s with [] => false | _ :: _ => true end.
Global Instance truthy_option {A} `{Truthy A} : Truthy (option A) :=
  fun o => match o with Some a => truthy a | None => false end.

(** [a || b] on optional values: [a] when it is truthy, [b] otherwise. *)
Definition js_or {A} `{Truthy A} (a b : option A) : option A :=
  if truthy a then a else b.

(** The character class [\s] of an ECMAScript regular expression: WhiteSpace
    and LineTerminator code points. *)
Definition isWhiteSpace (c : N) : bool :=
  ((9 <=? c) && (c <=? 13) || (c =? 32) || (c =? 160) || (c =? 5760)
   || (8192 <=? c) && (c <=? 8202) || (c =? 8232) || (c =? 8233)
   || (c =? 8239) || (c =? 8287) || (c =? 12288) || (c =? 65279))%N.

(** [/\s+/.test(s)]: some code unit of [s] is white space. *)
Definition test_whitespace (s : jsstring) : bool := existsb isWhiteSpace s.

(** The character class [\d]: the ASCII digits. *)
Definition isDigit (c : N) : bool := ((48 <=? c) && (c <=? 57))%N.

(** [/^\d+$/.test(s)]: [s] is a non-empty run of digits. *)
Definition test_digits (s : jsstring) : bool :=
  truthy s && forallb isDigit s.

(** The values [parseInt] returns: an integer that is a double, [-0], an
    infinity or [NaN]. *)
Inductive Number :=
  | Finite (n : Z)
  | NegZero
  | Infinity (negative : bool)
  | NaN.

Global Instance truthy_Number : Truthy Number :=
  fun x =>
    match x with
    | Finite n => negb (n =? 0)%Z
    | Infinity _ => true
    | NegZero | NaN => false
    end.

Definition isNaN (x : Number) : bool :=
  match x with NaN => true | _ => false end.

(** [x < m] for an integer [m]; a comparison with [NaN] is false. *)
Definition Number_ltb (x : Number) (m : Z) : bool :=
  match x with
  | Finite n => (n <? m)%Z
  | NegZero => (0 <? m)%Z
  | Infinity negative => negative
  | NaN => false
  end.

(** [x === id] for the [accountId] of an account. *)
Definition Number_is (x : Number) (id : option Z) : bool :=
  match x with
  | Finite n => bool_decide (id = Some n)
  | NegZero => bool_decide (id = Some 0%Z)
  | Infinity _ | NaN => false
  end.

(** The Number value of an integer: the integer itself up to 2^53 in
    magnitude, beyond that the nearest integer with a significand of 53 bits,
    a tie going to the even significand, and an infinity from 2^1024 on. *)
Definition toNumber (n : Z) : Number :=
  let m := Z.abs n in
  if (m <=? 9007199254740992)%Z then Finite n
  else
    let e := (Z.log2 m - 52)%Z in
    let q := Z.shiftr m e in
    let r := Z.land m (Z.ones e) in
    let half := Z.shiftl 1 (e - 1) in
    let q' := if (half <? r)%Z || ((r =? half)%Z && Z.odd q) then (q + 1)%Z else q in
    let v := Z.shiftl q' e in
    if (2 ^ 1024 <=? v)%Z then Infinity (n <? 0)%Z
    else Finite (Z.sgn n * v)%Z.

(** The integer a run of decimal digits spells. *)
Definition decimal (s : jsstring) : Z :=
  fold_left (fun acc c => 10 * acc + (Z.of_N c - 48))%Z s 0%Z.

(** Property names every plain object inherits from [Object.prototype]; a read
    [o[k]] of such a name on [{}] yields the inherited function (for
    [__proto__], the prototype object), which is truthy. *)
Definition OBJECT_PROTOTYPE_KEYS : list jsstring :=
  str <$> [ "constructor"; "__defineGetter__"; "__defineSetter__";
            "hasOwnProperty"; "__lookupGetter__"; "__lookupSetter__";
            "isPrototypeOf"; "propertyIsEnumerable"; "toString"; "valueOf";
            "__proto__"; "toLocaleString" ]%string.

(** Truthiness of the read [m[k]] where [m] started as [{}] and received only
    assignments [m[k'] = true]: an own property wins, then the prototype. *)
Definition object_get (m : gmap jsstring bool) (k : jsstring) : bool :=
  match m !! k with
  | Some b => b
  | None => bool_decide (k ∈ OBJECT_PROTOTYPE_KEYS)
  end.

(** The same read with a number as key. A number's property name is its
    decimal spelling, which no property of [Object.prototype] has, and two
    integers with the same spelling are equal: the map is keyed by the number. *)
Definition number_get (m : gmap Z bool) (k : Z) : bool :=
  default false (m !! k).

(** ** The data model ([types/Accounts], [types/Config], [types/CLIOptions]) *)

Section Model.

(** The payload of [tokenInfo] ([OauthTokenInfo]); the code only stores it and
    tests its presence. *)
Context {TokenInfo : Type}.

(** [OAuthAccount['auth']] *)
Record Auth := mkAuth {
  auth_clientId : option jsstring;
  auth_clientSecret : option jsstring;
  auth_scopes : option (list jsstring);
  auth_tokenInfo : option TokenInfo;
}.

(** [CLIAccount]: an entry of [config.accounts]. *)
Record CLIAccount := mkAccount {
  name : option jsstring;
  env : option jsstring;
  accountId : option Z;
  authType : option jsstring;
  auth : option Auth;
  apiKey : option jsstring;
  defaultMode : option jsstring;
  personalAccessKey : option jsstring;
  sandboxAccountType : option jsstring;
  parentAccountId : option Z;
}.

(** [FlatAccountFields]: the argument of [updateAccount]. *)
Record FlatAccountFields := mkFields {
  u_accountId : option Z;
  u_apiKey : option jsstring;
  u_authType : option jsstring;
  u_clientId : option jsstring;
  u_clientSecret : option jsstring;
  u_defaultMode : option jsstring;
  u_env : option jsstring;
  u_name : option jsstring;
  u_parentAccountId : option Z;
  u_personalAccessKey : option jsstring;
  u_sandboxAccountType : option jsstring;
  u_scopes : option (list jsstring);
  u_tokenInfo : option TokenInfo;
}.

(** [string | number]: an account named by its name or by its id. *)
Inductive NameOrId :=
  | Name (s : jsstring)
  | Id (n : Z).

Global Instance truthy_NameOrId : Truthy NameOrId :=
  fun x => match x with Name s => truthy s | Id n => truthy n end.

(** An object is truthy. *)
Global Instance truthy_CLIAccount : Truthy CLIAccount := fun _ => true.
(** So is an array, also an empty one. *)
Global Instance truthy_accounts : Truthy (list CLIAccount) := fun _ => true.
Global Instance truthy_scopes : Truthy (list jsstring) := fun _ => true.

(** [CLIConfig] *)
Record CLIConfig := mkConfig {
  accounts : list CLIAccount;
  defaultAccount : option NameOrId;
  cfg_env : option jsstring;
  cfg_defaultMode : option jsstring;
  httpTimeout : option Number;
  httpUseLocalhost : option bool;
  allowUsageTracking : option bool;
}.

Global Instance truthy_CLIConfig : Truthy CLIConfig := fun _ => true.

(** [{ accounts: [] }] *)
Definition empty_config : CLIConfig :=
  mkConfig [] None None None None None None.

(** [CLIOptions]; the class reads [useEnv] only. *)
Record CLIOptions := mkOptions { useEnv : option bool }.

(** What [validate] guards against: a parsed file may hold no array under
    [accounts], and an array may hold [null] entries. *)
Record ParsedConfig := mkParsed {
  parsed_accounts : option (list (option CLIAccount));
}.

Definition parsed_of (c : CLIConfig) : ParsedConfig :=
  mkParsed (Some (Some <$> accounts c)).

End Model.

Arguments Auth : clear implicits.
Arguments CLIAccount : clear implicits.
Arguments FlatAccountFields : clear implicits.
Arguments CLIConfig : clear implicits.
Arguments ParsedConfig : clear implicits.

(** ** What the class imports and this development does not define

    [config/environment], [config/configFile], [constants], [utils/urls] and
    [package.json] are not part of this development. Their functions and constants
    are the fields of two interfaces; nothing is assumed about them, and every
    property below holds for all implementations. *)

(** [config/configFile] and [loadConfigFromEnvironment], over an abstract state
    [World] of the process environment and of the file system. *)
Class ConfigFile (TokenInfo World : Type) := {
  loadConfigFromEnvironment : World -> option (CLIConfig TokenInfo);
  loadConfigFromFile : World -> option (CLIConfig TokenInfo);
  writeConfigToFile : CLIConfig TokenInfo -> World -> World;
  deleteConfigFile : World -> World;
  configFileExists : World -> bool;
  configFileIsBlank : World -> bool;
}.

(** Constants and pure helpers. *)
Class Imports := {
  (** [getValidEnv(env, false)] *)
  getValidEnv : option jsstring -> option jsstring;
  (** [DEFAULT_MODES[key]] *)
  DEFAULT_MODES : jsstring -> option jsstring;
  (** [String.prototype.toLowerCase] *)
  toLowerCase : jsstring -> jsstring;
  (** [API_KEY_AUTH_METHOD.value] *)
  API_KEY_AUTH_METHOD_value : jsstring;
  (** [getHubSpotApiOrigin(env, useLocalHost)] *)
  getHubSpotApiOrigin : option jsstring -> option bool -> jsstring;
  (** [version] of [package.json] *)
  version : jsstring;
}.

(** Exceptions. [throwErrorWithMessage] has return type [never]: the code after
    a call relies on it not returning. *)
Inductive JsError :=
  | ErrorWithMessage (key : string)
  | TypeError.

(** [parseInt(s, radix)], where the radix 0 stands for a call without one:
    leading white space is skipped, a sign is read, a prefix [0x] or [0X] is
    dropped and selects radix 16 where the radix is absent or 16, and the
    digits up to the first character that is not one are read. No digit gives
    [NaN], the integer zero gives [0] or [-0] by the sign, and any other
    integer its Number value. (ECMAScript lets an implementation read the
    decimal digits after the twentieth significant one as zeros; this is the
    value read from all of them, as V8 computes it.) *)
Definition digit_of (radix : Z) (c : N) : option Z :=
  let v :=
    if isDigit c then Some (Z.of_N c - 48)%Z
    else if ((97 <=? c) && (c <=? 122))%N then Some (Z.of_N c - 87)%Z
    else if ((65 <=? c) && (c <=? 90))%N then Some (Z.of_N c - 55)%Z
    else None in
  match v with
  | Some d => if (d <? radix)%Z then Some d else None
  | None => None
  end.

Fixpoint parse_digits (radix : Z) (s : jsstring) (acc : option Z) : option Z :=
  match s with
  | [] => acc
  | c :: rest =>
      match digit_of radix c with
      | Some d => parse_digits radix rest (Some (radix * default 0 acc + d)%Z)
      | None => acc
      end
  end.

Fixpoint trimStart (s : jsstring) : jsstring :=
  match s with
  | c :: rest => if isWhiteSpace c then trimStart rest else s
  | [] => []
  end.

Definition parseIntRadix (radix : Z) (s : jsstring) : Number :=
  let s := trimStart s in
  let '(sign, s) :=
    match s with
    | 45%N :: rest => ((-1)%Z, rest)
    | 43%N :: rest => (1%Z, rest)
    | _ => (1%Z, s)
    end in
  if negb (radix =? 0)%Z && ((radix <? 2)%Z || (36 <? radix)%Z) then NaN
  else
    let stripPrefix := (radix =? 0)%Z || (radix =? 16)%Z in
    let R := if (radix =? 0)%Z then 10%Z else radix in
    let '(R, s) :=
      match s with
      | 48%N :: x :: rest =>
          if stripPrefix && ((x =? 120) || (x =? 88))%N then (16%Z, rest) else (R, s)
      | _ => (R, s)
      end in
    match parse_digits R s None with
    | None => NaN
    | Some mathInt =>
        if (mathInt =? 0)%Z
        then (if (sign =? -1)%Z then NegZero else Finite 0)
        else toNumber (sign * mathInt)
    end.

(** [parseInt(s)] *)
Definition parseInt (s : jsstring) : Number := parseIntRadix 0 s.

(** [parseInt(s, 10)] *)
Definition parseInt10 (s : jsstring) : Number := parseIntRadix 10 s.

(** Constants of [constants] and [constants/config] the mutators of the class
    read. *)
Class ConfigConstants := {
  MIN_HTTP_TIMEOUT : Z;
  (** [Object.values(DEFAULT_MODES)] *)
  ALL_MODES : list jsstring;
  (** [ENVIRONMENTS.PROD] *)
  PROD : jsstring;
}.

Module CLIConfiguration.
Section Class.
Context {TokenInfo World : Type} `{!ConfigFile TokenInfo World} `{!Imports}.

Abbreviation CLIAccount := (CLIAccount TokenInfo).
Abbreviation CLIConfig := (CLIConfig TokenInfo).
Abbreviation FlatAccountFields := (FlatAccountFields TokenInfo).

Definition i18nKey : string := "config.cliConfiguration".

(** The fields of the instance. *)
Record t := mk {
  options : CLIOptions;
  useEnvConfig : bool;
  config : option CLIConfig;
}.

(** [constructor()] *)
Definition new : t := mk (mkOptions None) false None.

(** *** Methods that only read [this.config] take it as their argument *)

(** The callback of [accounts.every] in [validate], with the two maps it
    closes over passed along; [every] stops at the first entry the callback
    rejects. *)
Fixpoint validate_every (accountIdsMap : gmap Z bool)
    (accountNamesMap : gmap jsstring bool)
    (l : list (option CLIAccount)) : bool :=
  match l with
  | [] => true
  | None :: _ => false
  | Some accountConfig :: rest =>
      if negb (truthy (accountId accountConfig)) then false
      else
        match accountId accountConfig with
        | None => false
        | Some id =>
            if number_get accountIdsMap id then false
            else if truthy (name accountConfig) then
              match name accountConfig with
              | None => false
              | Some nm =>
                  if object_get accountNamesMap nm then false
                  else if test_whitespace nm then false
                  else validate_every (<[id := true]> accountIdsMap)
                         (<[nm := true]> accountNamesMap) rest
              end
            else validate_every (<[id := true]> accountIdsMap)
                   accountNamesMap rest
        end
  end.

Definition validate (config : option (ParsedConfig TokenInfo)) : bool :=
  match config with
  | None => false
  | Some c =>
      match parsed_accounts c with
      | None => false
      | Some l => validate_every ∅ ∅ l
      end
  end.

Definition getDefaultAccount (config : option CLIConfig) : option NameOrId :=
  match config with
  | Some c => if truthy (defaultAccount c) then defaultAccount c else None
  | None => None
  end.

(** [accounts.find(a => a.name === name)] *)
Definition find_by_name (nm : jsstring) (l : list CLIAccount) : option CLIAccount :=
  find (fun a => bool_decide (name a = Some nm)) l.

(** [accounts.find(a => accountId === a.accountId)] *)
Definition find_by_id (id : Z) (l : list CLIAccount) : option CLIAccount :=
  find (fun a => bool_decide (accountId a = Some id)) l.

(** The same [find] where the id sought is what [parseInt] returned. *)
Definition find_by_number (x : Number) (l : list CLIAccount) : option CLIAccount :=
  find (fun a => Number_is x (accountId a)) l.

Definition getAccount (config : option CLIConfig) (nameOrId : option NameOrId)
    : option CLIAccount :=
  match config with
  | None => None
  | Some c =>
      let nameOrIdToCheck :=
        if truthy nameOrId then nameOrId else getDefaultAccount config in
      if negb (truthy nameOrIdToCheck) then None
      else
        let '(nm, id) :=
          match nameOrIdToCheck with
          | Some (Id n) => (None, Some (Finite n))
          | Some (Name s) =>
              if test_digits s then (None, Some (parseInt10 s))
              else (Some s, None)
          | None => (None, None)
          end in
        if truthy nm then find_by_name (default [] nm) (accounts c)
        else if truthy id then find_by_number (default NaN id) (accounts c)
        else None
  end.

Definition getAccountId (config : option CLIConfig) (nameOrId : option NameOrId)
    : option Z :=
  match getAccount config nameOrId with
  | Some account => accountId account
  | None => None
  end.

(** [Array.prototype.findIndex]; [None] stands for [-1]. *)
Fixpoint findIndex {A} (p : A -> bool) (l : list A) : option nat :=
  match l with
  | [] => None
  | x :: rest => if p x then Some 0 else S <$> findIndex p rest
  end.

Definition getConfigAccountIndex (config : option CLIConfig) (id : Z) : option nat :=
  match config with
  | Some c => findIndex (fun a => bool_decide (accountId a = Some id)) (accounts c)
  | None => None
  end.

(** *** Methods that write [this] or touch the file: a state and error monad *)

Inductive Result (A : Type) :=
  | Return (a : A) (this : t) (w : World)
  | Throw (e : JsError).
Arguments Return {A}.
Arguments Throw {A}.

Definition M (A : Type) : Type := t -> World -> Result A.

Global Instance M_ret : MRet M := fun A a this w => Return a this w.
Global Instance M_bind : MBind M := fun A B f m this w =>
  match m this w with
  | Return a this' w' => f a this' w'
  | Throw e => Throw e
  end.
Global Instance M_throw : MThrow JsError M := fun A e _ _ => Throw e.

Definition get_this : M t := fun this w => Return this this w.
Definition set_options (o : CLIOptions) : M unit :=
  fun this w => Return () (mk o (useEnvConfig this) (config this)) w.
Definition set_useEnvConfig (b : bool) : M unit :=
  fun this w => Return () (mk (options this) b (config this)) w.
Definition set_config (c : option CLIConfig) : M unit :=
  fun this w => Return () (mk (options this) (useEnvConfig this) c) w.
(** A call that reads the environment or the file. *)
Definition ask {A} (f : World -> A) : M A := fun this w => Return (f w) this w.
(** A call that changes the file. *)
Definition tell (f : World -> World) : M unit := fun this w => Return () this (f w).
Definition when_ (b : bool) (m : M unit) : M unit := if b then m else mret ().

Definition load : M (option CLIConfig) :=
  this ← get_this;
  (if truthy (useEnv (options this)) then
     configFromEnv ← ask loadConfigFromEnvironment;
     match configFromEnv with
     | Some c =>
         (* the argument of [debug] reads [configFromEnv.accounts[0].accountId] *)
         match accounts c with [] => mthrow TypeError | _ :: _ => mret () end;;
         set_useEnvConfig true;;
         set_config (Some c)
     | None => mret ()
     end
   else
     configFromFile ← ask loadConfigFromFile;
     when_ (negb (truthy configFromFile)) (set_config (Some empty_config));;
     set_useEnvConfig false;;
     set_config configFromFile);;
  this ← get_this;
  mret (config this).

Definition init (opts : option CLIOptions) : M unit :=
  set_options (default (mkOptions None) opts);;
  load;;
  mret ().

(** [Object.keys(config).length]: [accounts] and the optional keys that are set. *)
Definition keys_length (c : CLIConfig) : nat :=
  let key {A} (o : option A) := match o with Some _ => 1 | None => 0 end in
  1 + key (defaultAccount c) + key (cfg_env c) + key (cfg_defaultMode c)
    + key (httpTimeout c) + key (httpUseLocalhost c)
    + key (allowUsageTracking c).

Definition configIsEmpty : M bool :=
  exists_ ← ask configFileExists;
  blank ← ask configFileIsBlank;
  if negb exists_ || blank then mret true
  else
    load;;
    this ← get_this;
    match config this with
    | Some c => mret (bool_decide (keys_length c = 1) && truthy (accounts c))
    | None => mret false
    end.

Definition delete : M unit :=
  this ← get_this;
  cond ← (if negb (useEnvConfig this) then configIsEmpty else mret false);
  when_ cond (tell deleteConfigFile;; set_config None).

Definition write (updatedConfig : option CLIConfig) : M (option CLIConfig) :=
  this ← get_this;
  when_ (negb (useEnvConfig this))
    (when_ (truthy updatedConfig) (set_config updatedConfig);;
     this ← get_this;
     match config this with
     | Some c => tell (writeConfigToFile c)
     | None => mret ()
     end);;
  this ← get_this;
  mret (config this).

Definition getAndLoadConfigIfNeeded (opts : option CLIOptions) : M (option CLIConfig) :=
  this ← get_this;
  when_ (negb (truthy (config this))) (init opts);;
  this ← get_this;
  mret (config this).

(** *** [updateAccount] *)

(** [{}] as a partial account. *)
Definition empty_account : CLIAccount :=
  mkAccount None None None None None None None None None None.

(** The assignments [nextAccountConfig[fieldName] = newValue], one per field
    name [updateAccount] passes to [safelyApplyUpdates]. *)
Variant FieldName : Type -> Type :=
  | f_name : FieldName jsstring
  | f_env : FieldName jsstring
  | f_accountId : FieldName Z
  | f_authType : FieldName jsstring
  | f_auth : FieldName (Auth TokenInfo)
  | f_apiKey : FieldName jsstring
  | f_defaultMode : FieldName jsstring
  | f_personalAccessKey : FieldName jsstring
  | f_sandboxAccountType : FieldName jsstring
  | f_parentAccountId : FieldName Z.

Definition assign {V} (fieldName : FieldName V) : V -> CLIAccount -> CLIAccount :=
  match fieldName in FieldName V return V -> CLIAccount -> CLIAccount with
  | f_name => fun v a =>
      mkAccount (Some v) (env a) (accountId a) (authType a) (auth a) (apiKey a)
        (defaultMode a) (personalAccessKey a) (sandboxAccountType a) (parentAccountId a)
  | f_env => fun v a =>
      mkAccount (name a) (Some v) (accountId a) (authType a) (auth a) (apiKey a)
        (defaultMode a) (personalAccessKey a) (sandboxAccountType a) (parentAccountId a)
  | f_accountId => fun v a =>
      mkAccount (name a) (env a) (Some v) (authType a) (auth a) (apiKey a)
        (defaultMode a) (personalAccessKey a) (sandboxAccountType a) (parentAccountId a)
  | f_authType => fun v a =>
      mkAccount (name a) (env a) (accountId a) (Some v) (auth a) (apiKey a)
        (defaultMode a) (personalAccessKey a) (sandboxAccountType a) (parentAccountId a)
  | f_auth => fun v a =>
      mkAccount (name a) (env a) (accountId a) (authType a) (Some v) (apiKey a)
        (defaultMode a) (personalAccessKey a) (sandboxAccountType a) (parentAccountId a)
  | f_apiKey => fun v a =>
      mkAccount (name a) (env a) (accountId a) (authType a) (auth a) (Some v)
        (defaultMode a) (personalAccessKey a) (sandboxAccountType a) (parentAccountId a)
  | f_defaultMode => fun v a =>
      mkAccount (name a) (env a) (accountId a) (authType a) (auth a) (apiKey a)
        (Some v) (personalAccessKey a) (sandboxAccountType a) (parentAccountId a)
  | f_personalAccessKey => fun v a =>
      mkAccount (name a) (env a) (accountId a) (authType a) (auth a) (apiKey a)
        (defaultMode a) (Some v) (sandboxAccountType a) (parentAccountId a)
  | f_sandboxAccountType => fun v a =>
      mkAccount (name a) (env a) (accountId a) (authType a) (auth a) (apiKey a)
        (defaultMode a) (personalAccessKey a) (Some v) (parentAccountId a)
  | f_parentAccountId => fun v a =>
      mkAccount (name a) (env a) (accountId a) (authType a) (auth a) (apiKey a)
        (defaultMode a) (personalAccessKey a) (sandboxAccountType a) (Some v)
  end.

(** The inner function of [updateAccount]; [nextAccountConfig], which it
    closes over and assigns to, is passed in and returned. *)
Definition safelyApplyUpdates {V} (fieldName : FieldName V) (newValue : option V)
    (nextAccountConfig : CLIAccount) : CLIAccount :=
  match newValue with
  | Some v => assign fieldName v nextAccountConfig
  | None => nextAccountConfig
  end.

(** [auth]: set when one of the four OAuth fields of the update is truthy. The
    object literal spreads the current [auth] and then writes the four keys,
    each with the update's value, [undefined] included. *)
Definition next_auth (u : FlatAccountFields) (currentAccountConfig : option CLIAccount)
    : option (Auth TokenInfo) :=
  if truthy (u_clientId u) || truthy (u_clientSecret u)
     || truthy (u_scopes u) || match u_tokenInfo u with Some _ => true | None => false end
  then
    let spread := default (mkAuth None None None None) (currentAccountConfig ≫= auth) in
    let spread := mkAuth (u_clientId u) (auth_clientSecret spread)
                    (auth_scopes spread) (auth_tokenInfo spread) in
    let spread := mkAuth (auth_clientId spread) (u_clientSecret u)
                    (auth_scopes spread) (auth_tokenInfo spread) in
    let spread := mkAuth (auth_clientId spread) (auth_clientSecret spread)
                    (u_scopes u) (auth_tokenInfo spread) in
    Some (mkAuth (auth_clientId spread) (auth_clientSecret spread)
            (auth_scopes spread) (u_tokenInfo u))
  else None.

(** [completedAccountConfig] of [updateAccount], from the update and the
    account [getAccount] found (or [null]). *)
Definition completedAccountConfig (u : FlatAccountFields) (id : Z)
    (currentAccountConfig : option CLIAccount) : CLIAccount :=
  let auth := next_auth u currentAccountConfig in
  let nextAccountConfig := default empty_account currentAccountConfig in
  let updatedEnv :=
    getValidEnv (js_or (u_env u) (currentAccountConfig ≫= env)) in
  let updatedDefaultMode :=
    match u_defaultMode u with
    | Some m => if truthy m then Some (toLowerCase m) else Some m
    | None => None
    end in
  let nextAccountConfig := safelyApplyUpdates f_name (u_name u) nextAccountConfig in
  let nextAccountConfig := safelyApplyUpdates f_env updatedEnv nextAccountConfig in
  let nextAccountConfig := safelyApplyUpdates f_accountId (Some id) nextAccountConfig in
  let nextAccountConfig := safelyApplyUpdates f_authType (u_authType u) nextAccountConfig in
  let nextAccountConfig := safelyApplyUpdates f_auth auth nextAccountConfig in
  let nextAccountConfig :=
    if bool_decide (authType nextAccountConfig = Some API_KEY_AUTH_METHOD_value)
    then safelyApplyUpdates f_apiKey (u_apiKey u) nextAccountConfig
    else nextAccountConfig in
  let nextAccountConfig :=
    match updatedDefaultMode with
    | Some m => safelyApplyUpdates f_defaultMode (DEFAULT_MODES m) nextAccountConfig
    | None => nextAccountConfig
    end in
  let nextAccountConfig :=
    safelyApplyUpdates f_personalAccessKey (u_personalAccessKey u) nextAccountConfig in
  let nextAccountConfig :=
    safelyApplyUpdates f_sandboxAccountType (u_sandboxAccountType u) nextAccountConfig in
  safelyApplyUpdates f_parentAccountId (u_parentAccountId u) nextAccountConfig.

(** [config.accounts = l] *)
Definition with_accounts (c : CLIConfig) (l : list CLIAccount) : CLIConfig :=
  mkConfig l (defaultAccount c) (cfg_env c) (cfg_defaultMode c) (httpTimeout c)
    (httpUseLocalhost c) (allowUsageTracking c).

(** [arr[index] = x] with [index] the result of [findIndex]: an index inside
    the array replaces the element; [-1] names no element and leaves the
    elements as they are. *)
Definition array_set {A} (index : option nat) (x : A) (arr : list A) : list A :=
  match index with
  | Some i => <[i := x]> arr
  | None => arr
  end.

Definition updateAccount (updatedAccountFields : FlatAccountFields)
    (writeUpdate : bool) : M (option CLIAccount) :=
  if negb (truthy (u_accountId updatedAccountFields))
  then mthrow (ErrorWithMessage (i18nKey ++ ".updateAccount"))
  else
    let id := default 0%Z (u_accountId updatedAccountFields) in
    this ← get_this;
    match config this with
    | None => mret None
    | Some c =>
        let currentAccountConfig := getAccount (Some c) (Some (Id id)) in
        let completed :=
          completedAccountConfig updatedAccountFields id currentAccountConfig in
        when_ (truthy currentAccountConfig)
          (let index := getConfigAccountIndex (Some c) id in
           let accounts1 := array_set index completed (accounts c) in
           let accounts2 :=
             if truthy accounts1 then accounts1 ++ [completed] else [completed] in
           set_config (Some (with_accounts c accounts2)));;
        when_ writeUpdate (write None;; mret ());;
        mret (Some completed)
    end.

(** *** The other readers and mutators *)

Context `{!ConfigConstants}.

Definition isAccountInConfig (config : option CLIConfig) (nameOrId : NameOrId)
    : bool :=
  match config with
  | Some c => truthy (accounts c) && truthy (getAccountId config (Some nameOrId))
  | None => false
  end.

Definition getEnv (config : option CLIConfig) (nameOrId : option NameOrId)
    : jsstring :=
  let accountConfig := getAccount config nameOrId in
  if truthy accountConfig && truthy (accountConfig ≫= accountId)
     && truthy (accountConfig ≫= env)
  then default [] (accountConfig ≫= env)
  else if truthy config && truthy (config ≫= cfg_env)
  then default [] (config ≫= cfg_env)
  else PROD.

(** [if (!this.config) { throwErrorWithMessage(`${i18nKey}.noConfigLoaded`); }],
    the first statement of every mutator below; returns [this.config]. *)
Definition requireConfig : M CLIConfig :=
  this ← get_this;
  match config this with
  | Some c => mret c
  | None => mthrow (ErrorWithMessage (i18nKey ++ ".noConfigLoaded"))
  end.

Definition with_defaultAccount (c : CLIConfig) (d : NameOrId) : CLIConfig :=
  mkConfig (accounts c) (Some d) (cfg_env c) (cfg_defaultMode c) (httpTimeout c)
    (httpUseLocalhost c) (allowUsageTracking c).

Definition with_defaultMode (c : CLIConfig) (m : jsstring) : CLIConfig :=
  mkConfig (accounts c) (defaultAccount c) (cfg_env c) (Some m) (httpTimeout c)
    (httpUseLocalhost c) (allowUsageTracking c).

Definition with_httpTimeout (c : CLIConfig) (n : Number) : CLIConfig :=
  mkConfig (accounts c) (defaultAccount c) (cfg_env c) (cfg_defaultMode c) (Some n)
    (httpUseLocalhost c) (allowUsageTracking c).

Definition with_allowUsageTracking (c : CLIConfig) (b : bool) : CLIConfig :=
  mkConfig (accounts c) (defaultAccount c) (cfg_env c) (cfg_defaultMode c)
    (httpTimeout c) (httpUseLocalhost c) (Some b).

(** The argument has the type [string | number], so of the two tests only
    [!defaultAccount] can hold. *)
Definition updateDefaultAccount (defaultAccount : NameOrId) : M (option CLIConfig) :=
  c ← requireConfig;
  if negb (truthy defaultAccount)
  then mthrow (ErrorWithMessage (i18nKey ++ ".updateDefaultAccount"))
  else
    set_config (Some (with_defaultAccount c defaultAccount));;
    write None.

(** [name === this.getDefaultAccount()]: an account name ([undefined] or a
    string) against the default account ([null], a string or a number). *)
Definition name_is_default (nm : option jsstring) (d : option NameOrId) : bool :=
  match nm, d with
  | Some s, Some (Name s') => bool_decide (s = s')
  | _, _ => false
  end.

Definition renameAccount (currentName newName : jsstring) : M unit :=
  c ← requireConfig;
  let accountId := getAccountId (Some c) (Some (Name currentName)) in
  let accountConfigToRename :=
    if truthy accountId then getAccount (Some c) (Some (Id (default 0%Z accountId)))
    else None in
  match accountConfigToRename with
  | None => mthrow (ErrorWithMessage (i18nKey ++ ".renameAccount"))
  | Some toRename =>
      when_ (truthy accountId)
        (updateAccount
           (mkFields accountId None None None None None None (Some newName)
              None None None None None) true;;
         mret ());;
      this ← get_this;
      when_ (name_is_default (name toRename) (getDefaultAccount (config this)))
        (updateDefaultAccount (Name newName);; mret ())
  end.

(** [arr.splice(index, 1)] with [index] the result of [findIndex]: the element
    at the index is removed; [-1] counts from the end and removes the last
    element. *)
Definition splice1 {A} (index : option nat) (arr : list A) : list A :=
  match index with
  | Some i => base.delete i arr
  | None => take (length arr - 1) arr
  end.

Definition removeAccountFromConfig (nameOrId : NameOrId) : M bool :=
  c ← requireConfig;
  let accountId := getAccountId (Some c) (Some nameOrId) in
  if negb (truthy accountId)
  then mthrow (ErrorWithMessage (i18nKey ++ ".removeAccountFromConfig"))
  else
    let id := default 0%Z accountId in
    let accountConfig := getAccount (Some c) (Some (Id id)) in
    match accountConfig with
    | Some account =>
        let index := getConfigAccountIndex (Some c) id in
        set_config (Some (with_accounts c (splice1 index (accounts c))));;
        this ← get_this;
        let removedAccountIsDefault :=
          name_is_default (name account) (getDefaultAccount (config this)) in
        write None;;
        mret removedAccountIsDefault
    | None => mret false
    end.

Definition updateDefaultMode (defaultMode : jsstring) : M (option CLIConfig) :=
  c ← requireConfig;
  if negb (truthy defaultMode)
     || negb (truthy (find (fun m => bool_decide (m = defaultMode)) ALL_MODES))
  then mthrow (ErrorWithMessage (i18nKey ++ ".updateDefaultMode"))
  else
    set_config (Some (with_defaultMode c defaultMode));;
    write None.

Definition updateHttpTimeout (timeout : jsstring) : M (option CLIConfig) :=
  c ← requireConfig;
  let parsedTimeout := parseInt timeout in
  if isNaN parsedTimeout || Number_ltb parsedTimeout MIN_HTTP_TIMEOUT
  then mthrow (ErrorWithMessage (i18nKey ++ ".updateHttpTimeout"))
  else
    set_config (Some (with_httpTimeout c parsedTimeout));;
    write None.

(** The argument has the type [boolean], so [typeof isEnabled !== 'boolean']
    does not hold. *)
Definition updateAllowUsageTracking (isEnabled : bool) : M (option CLIConfig) :=
  c ← requireConfig;
  set_config (Some (with_allowUsageTracking c isEnabled));;
  write None.

End Class.

(** Unfolds the monad of the class in a goal. *)
Ltac run :=
  unfold mbind, mret, mthrow, M_bind, M_ret, M_throw, when_, get_this,
    set_config, set_useEnvConfig, set_options, ask, tell;
  cbn [config useEnvConfig options negb].

Arguments Return {TokenInfo World A}.
Arguments Throw {TokenInfo World A}.
Arguments t : clear implicits.
Arguments M : clear implicits.
End CLIConfiguration.

(** ** [http/getRequestOptions.ts] *)

(** The values an options object holds. *)
Inductive JsVal :=
  | VUndefined
  | VBool (b : bool)
  | VNum (n : Number)
  | VStr (s : jsstring)
  | VHeaders (h : list (string * jsstring)).

Section GetRequestOptions.
Context {TokenInfo World : Type} `{!ConfigFile TokenInfo World} `{!Imports}.

Definition DEFAULT_USER_AGENT_HEADERS : list (string * jsstring) :=
  [("User-Agent"%string, str "HubSpot Local Dev Lib/" ++ version)].

(** [GetRequestOptionsOptions] *)
Record GetRequestOptionsOptions := mkGetRequestOptionsOptions {
  o_env : option jsstring;
  o_localHostOverride : option bool;
}.

(** An object literal [{ k1: v1, ..., ...requestOptions }]: the keys of the
    spread object, written last, replace the literal's. Destructuring the
    result of [getAndLoadConfigIfNeeded] throws when it is [null]. *)
Definition getRequestOptions (options : GetRequestOptionsOptions)
    (requestOptions : gmap string JsVal)
    : CLIConfiguration.M TokenInfo World (gmap string JsVal) :=
  loaded ← CLIConfiguration.getAndLoadConfigIfNeeded None;
  match loaded with
  | None => mthrow TypeError
  | Some c =>
      let baseUrl :=
        getHubSpotApiOrigin (o_env options)
          (if truthy (o_localHostOverride options) then Some false
           else httpUseLocalhost c) in
      let timeout :=
        if truthy (httpTimeout c) then default NaN (httpTimeout c)
        else Finite 15000 in
      mret (requestOptions ∪
            <["baseUrl"%string := VStr baseUrl]>
            (<["headers"%string := VHeaders DEFAULT_USER_AGENT_HEADERS]>
            (<["json"%string := VBool true]>
            (<["simple"%string := VBool true]>
            (<["timeout"%string := VNum timeout]> ∅)))))
  end.

End GetRequestOptions.

(** ** [lib/archive.ts]

    ([src/lib/archive.ts] has the same control flow; it logs through [debug]
    and raises through [throwError] where this one uses
    [throwErrorWithMessage].) *)

Abbreviation Buffer := (list N).

Module Archive.
Section Archive.

(** The value a rejected [fs] or [extract-zip] promise carries. *)
Context {BaseError : Type}.

(** What is thrown: the rejection itself, or what [throwFileSystemError] and
    [throwErrorWithMessage] build around it (both return [never]). *)
Inductive Thrown :=
  | Raw (e : BaseError)
  | FileSystemError (cause : Thrown) (filepath : jsstring) (write : bool)
  | ErrorWithMessage (key : string) (cause : Thrown).

(** The calls into [fs-extra] and [extract-zip]. *)
Inductive FsCall :=
  | Mkdtemp (prefix : jsstring)
  | EnsureFile (path : jsstring)
  | WriteFile (path : jsstring) (data : Buffer) (mode : N)
  | Extract (zipPath dir : jsstring)
  | Readdir (path : jsstring)
  | EnsureDir (path : jsstring)
  | Copy (src dest : jsstring)
  | Remove (path : jsstring).

(** A call as the routine makes it: [awaited] tells whether the routine waits
    for the promise the call returns, or drops it. *)
Record Event := mkEvent { call : FsCall; awaited : bool }.

(** How the awaited calls end, and the two path functions of Node. A call whose
    promise is dropped ([ensureDir], [remove]) has no outcome the routine sees. *)
Class FileSystem := {
  join : list jsstring -> jsstring;
  tmpdir : jsstring;
  mkdtemp : jsstring -> BaseError + jsstring;
  ensureFile : jsstring -> BaseError + unit;
  writeFile : jsstring -> Buffer -> BaseError + unit;
  extract : jsstring -> jsstring -> BaseError + unit;
  readdir : jsstring -> BaseError + list jsstring;
  copy : jsstring -> jsstring -> BaseError + unit;
}.
Context {fileSystem : FileSystem}.

(** How the promise of an [async] function settles. *)
Inductive Settled (A : Type) :=
  | Resolved (a : A)
  | Rejected (e : Thrown).
Arguments Resolved {A}.
Arguments Rejected {A}.

(** An [async] function: the calls it made, in order, by the time its promise
    settles, and how the promise settles. *)
Definition P (A : Type) : Type := list Event * Settled A.

Global Instance P_ret : MRet P := fun A a => ([], Resolved a).
Global Instance P_bind : MBind P := fun A B f m =>
  match m with
  | (t, Resolved a) => let '(t', r) := f a in (t ++ t', r)
  | (t, Rejected e) => (t, Rejected e)
  end.
Global Instance P_throw : MThrow Thrown P := fun A e => ([], Rejected e).

(** A call whose promise is dropped. *)
Definition fire (c : FsCall) : P unit := ([mkEvent c false], Resolved ()).

(** [await c] inside a [try] block: [k] is the rest of the block and of the
    function when the call succeeds, [handler] the [catch] clause of the block
    when it fails. *)
Definition await {A B} (c : FsCall) (outcome : BaseError + A)
    (k : A -> P B) (handler : Thrown -> P B) : P B :=
  let '(t, r) := match outcome with
                 | inr a => k a
                 | inl e => handler (Raw e)
                 end in
  (mkEvent c true :: t, r).

Definition i18nKey : string := "lib.archive".

Record ZipData := mkZipData { extractDir : jsstring; tmpDir : jsstring }.

Definition extractZip (name : jsstring) (zip : Buffer) : P ZipData :=
  let TMP_FOLDER_PREFIX := str "hubspot-temp-" ++ name ++ str "-" in
  (* the first [catch] clause, with the values [tmpZipPath] and [result.tmpDir]
     have when it runs *)
  let write_failed (tmpZipPath tmpDir : jsstring) (err : Thrown) : P ZipData :=
    if truthy tmpZipPath || truthy tmpDir
    then mthrow (FileSystemError err
                   (if truthy tmpZipPath then tmpZipPath else tmpDir) true)
    else mthrow (ErrorWithMessage (i18nKey ++ ".extractZip.errors.write") err) in
  let prefix := join [tmpdir; TMP_FOLDER_PREFIX] in
  await (Mkdtemp prefix) (mkdtemp prefix) (fun tmpDir =>
    let tmpZipPath := join [tmpDir; str "hubspot-temp.zip"] in
    await (EnsureFile tmpZipPath) (ensureFile tmpZipPath) (fun _ =>
      await (WriteFile tmpZipPath zip 511) (writeFile tmpZipPath zip) (fun _ =>
        (* the second [try] block *)
        let tmpExtractPath := join [tmpDir; str "extracted"] in
        await (Extract tmpZipPath tmpExtractPath) (extract tmpZipPath tmpExtractPath)
          (fun _ => mret (mkZipData tmpExtractPath tmpDir))
          (fun err =>
             mthrow (ErrorWithMessage (i18nKey ++ ".extractZip.errors.extract") err)))
        (write_failed tmpZipPath tmpDir))
      (write_failed tmpZipPath tmpDir))
    (write_failed [] []).

Record CopySourceToDestOptions := mkCopyOptions {
  sourceDir : option jsstring;
  includesRootDir : option bool;
}.

Definition copySourceToDest (src dest : jsstring) (opts : CopySourceToDestOptions)
    : P bool :=
  let includesRootDir := default true (includesRootDir opts) in
  let copy_failed (err : Thrown) : P bool :=
    mthrow (FileSystemError err dest true) in
  (* the statements after [if (includesRootDir) { ... }] *)
  let rest (srcDirPath : list jsstring) : P bool :=
    let srcDirPath :=
      if truthy (sourceDir opts)
      then srcDirPath ++ [default [] (sourceDir opts)] else srcDirPath in
    let projectSrcDir := join srcDirPath in
    await (Copy projectSrcDir dest) (copy projectSrcDir dest)
      (fun _ => mret true) copy_failed in
  if includesRootDir then
    await (Readdir src) (readdir src) (fun files =>
      let rootDir := head files in
      if negb (truthy rootDir) then fire (EnsureDir dest);; mret true
      else rest ([src] ++ [default [] rootDir]))
      copy_failed
  else rest [src].

Definition cleanupTempDir (tmpDir : jsstring) : P unit :=
  if negb (truthy tmpDir) then mret ()
  else fire (Remove tmpDir).

(** [extractDir] is a string, so [extractDir !== null] holds. *)
Definition extractZipArchive (zip : option Buffer) (name dest : jsstring)
    (opts : CopySourceToDestOptions) : P bool :=
  match zip with
  | Some zip =>
      data ← extractZip name zip;
      success ← copySourceToDest (extractDir data) dest opts;
      cleanupTempDir (tmpDir data);;
      mret success
  | None => mret false
  end.

(** The calls of a run, without the [awaited] marks. *)
Definition calls {A} (run : P A) : list FsCall := call <$> run.1.

End Archive.
Arguments Thrown : clear implicits.
Arguments FileSystem : clear implicits.
Arguments Settled : clear implicits.
Arguments Resolved {BaseError A}.
Arguments Rejected {BaseError A}.
Arguments P : clear implicits.
End Archive.

(** ** The HTTP calls of [lib/trackUsage.ts], [api/fileTransport.ts] and
    [api/localDevAuth.ts] *)

Inductive Verb := GET | POST | PUT.

(** [usageEvent] of [trackUsage] *)
Record UsageEvent (Meta : Type) := mkUsageEvent {
  ev_accountId : option Z;
  ev_eventName : jsstring;
  ev_eventClass : jsstring;
  ev_meta : Meta;
}.
Arguments mkUsageEvent {Meta}.

(** What a request carries as [data] or [body]. *)
Inductive Payload (Meta : Type) :=
  | UsageData (e : UsageEvent Meta)
  | FileStream (path : jsstring)
  | RefreshToken (encodedOAuthRefreshToken : jsstring).
Arguments UsageData {Meta}.
Arguments FileStream {Meta}.
Arguments RefreshToken {Meta}.

(** The options object handed to [http.post], [http.put] or [getAxiosConfig];
    a key the call site does not write is [None] (or the empty list). *)
Record RequestOptions (Meta : Type) := mkRequestOptions {
  r_url : jsstring;
  r_env : option jsstring;
  r_localHostOverride : option bool;
  r_data : option (Payload Meta);
  r_body : option (Payload Meta);
  r_params : list (string * Z);
  r_headers : list (string * jsstring);
  r_resolveWithFullResponse : option bool;
}.
Arguments mkRequestOptions {Meta}.
Arguments r_url {Meta}.
Arguments r_env {Meta}.
Arguments r_localHostOverride {Meta}.
Arguments r_data {Meta}.
Arguments r_body {Meta}.
Arguments r_params {Meta}.
Arguments r_headers {Meta}.
Arguments r_resolveWithFullResponse {Meta}.

(** A request as the code issues it: through the [http] client of the library
    for an account, or through [axios] with a configuration object. *)
Inductive HttpCall (Meta : Type) :=
  | Http (verb : Verb) (accountId : Z) (opts : RequestOptions Meta)
  | Axios (config : gmap string JsVal).
Arguments Http {Meta}.
Arguments Axios {Meta}.

(** The verb of a call: [axios] takes it from the key [method]. *)
Definition verb_of {Meta} (c : HttpCall Meta) : option Verb :=
  match c with
  | Http v _ _ => Some v
  | Axios config =>
      match config !! "method"%string with
      | Some (VStr m) =>
          if bool_decide (m = str "post") then Some POST
          else if bool_decide (m = str "put") then Some PUT
          else if bool_decide (m = str "get") then Some GET
          else None
      | _ => None
      end
  end.

(** [http/getAxiosConfig], [http], [config] and [lib/path] are not part of
    this development: their functions are the fields of this interface. *)
Class HttpImports (TokenInfo Meta : Type) := {
  getAxiosConfig : RequestOptions Meta -> gmap string JsVal;
  getAccountConfig : Z -> option (CLIAccount TokenInfo);
  getEnv : option Z -> jsstring;
  FILE_MAPPER_API_PATH : jsstring;
  ENVIRONMENTS_PROD : jsstring;
  getCwd : jsstring;
  path_resolve : jsstring -> jsstring -> jsstring;
}.

Module TrackUsage.
Section TrackUsage.
Context {TokenInfo Meta : Type} `{!HttpImports TokenInfo Meta}.

(** How a promise ends. *)
Inductive Settlement := Fulfilled | Rejected.

(** [analyticsEndpoint] after the [switch]; [None] is [undefined]. *)
Definition analyticsEndpoint (eventName : jsstring) : option jsstring :=
  if bool_decide (eventName = str "cli-interaction") then Some (str "cms-cli-usage")
  else if bool_decide (eventName = str "vscode-extension-interaction")
  then Some (str "vscode-extension-usage")
  else None.

(** [trackUsage], given how the request it issues ends ([respond]): the
    requests issued, and how the promise [trackUsage] returns settles. An
    [async] function that returns a promise settles as that promise does; one
    that falls off its end resolves. *)
Definition trackUsage (eventName eventClass : jsstring) (meta : Meta)
    (accountId : option Z) (respond : HttpCall Meta -> Settlement)
    : list (HttpCall Meta) * Settlement :=
  let usageEvent := mkUsageEvent accountId eventName eventClass meta in
  let path :=
    FILE_MAPPER_API_PATH ++ str "/"
      ++ default (str "undefined") (analyticsEndpoint eventName) in
  let accountConfig :=
    if truthy accountId then getAccountConfig (default 0%Z accountId) else None in
  if truthy accountConfig
     && bool_decide (accountConfig ≫= authType = Some (str "personalaccesskey"))
  then
    let request :=
      Http POST (default 0%Z accountId)
        (mkRequestOptions (path ++ str "/authenticated") None None
           (Some (UsageData usageEvent)) None [] [] (Some true)) in
    ([request], respond request)
  else
    let env := getEnv accountId in
    let axiosConfig :=
      getAxiosConfig
        (mkRequestOptions path (Some env) None (Some (UsageData usageEvent))
           None [] [] (Some true)) in
    let request := Axios (<["method"%string := VStr (str "post")]> axiosConfig) in
    ([request], Fulfilled).

(** The event goes to the authenticated endpoint: the account id is truthy
    and the account is set up with a personal access key. *)
Definition sends_authenticated (accountId : option Z) : bool :=
  match accountId with
  | Some id =>
      negb (id =? 0)%Z
      && match getAccountConfig id with
         | Some account =>
             bool_decide (authType account = Some (str "personalaccesskey"))
         | None => false
         end
  | None => false
  end.

End TrackUsage.
End TrackUsage.

Module Api.
Section Api.
Context {TokenInfo Meta : Type} `{!HttpImports TokenInfo Meta}.

Definition HUBFILES_API_PATH : jsstring := str "/file-transport/v1/hubfiles".
Definition LOCALDEVAUTH_API_AUTH_PATH : jsstring := str "localdevauth/v1/auth".

Definition createSchemaFromHubFile (accountId : Z) (filepath : jsstring)
    : HttpCall Meta :=
  let file := FileStream (path_resolve getCwd filepath) in
  Http POST accountId
    (mkRequestOptions (HUBFILES_API_PATH ++ str "/object-schemas") None None
       (Some file) None [] [("Content-Type"%string, str "multipart/form-data")] None).

Definition updateSchemaFromHubFile (accountId : Z) (filepath : jsstring)
    : HttpCall Meta :=
  let file := FileStream (path_resolve getCwd filepath) in
  Http PUT accountId
    (mkRequestOptions (HUBFILES_API_PATH ++ str "/object-schemas") None None
       (Some file) None [] [("Content-Type"%string, str "multipart/form-data")] None).

(** The options [fetchAccessToken] hands to [getAxiosConfig]. *)
Definition fetchAccessToken_options (personalAccessKey : jsstring)
    (env : option jsstring) (portalId : option Z) : RequestOptions Meta :=
  let env := default ENVIRONMENTS_PROD env in
  let query :=
    if truthy portalId then [("portalId"%string, default 0%Z portalId)] else [] in
  mkRequestOptions (LOCALDEVAUTH_API_AUTH_PATH ++ str "/refresh") (Some env)
    (Some true) None (Some (RefreshToken personalAccessKey)) query [] None.

(** The request [fetchAccessToken] issues. *)
Definition fetchAccessToken (personalAccessKey : jsstring)
    (env : option jsstring) (portalId : option Z) : HttpCall Meta :=
  let axiosConfig :=
    getAxiosConfig (fetchAccessToken_options personalAccessKey env portalId) in
  Axios (<["method"%string := VStr (str "post")]> axiosConfig).

End Api.
End Api.

(** ** An implementation of the interfaces, to run the model on examples

    The functions below stand in for the imported ones where a property is
    evaluated at a concrete input. The world is the configuration the
    environment variables describe (if any) and the content of the
    configuration file (if there is one). *)

Module Sample.

Definition World : Type := option (CLIConfig unit) * option (CLIConfig unit).

Global Instance configFile : ConfigFile unit World := {|
  loadConfigFromEnvironment w := w.1;
  loadConfigFromFile w := w.2;
  writeConfigToFile c w := (w.1, Some c);
  deleteConfigFile w := (w.1, None);
  configFileExists w := match w.2 with Some _ => true | None => false end;
  configFileIsBlank w := false;
|}.

Definition lower (c : N) : N :=
  if ((65 <=? c) && (c <=? 90))%N then (c + 32)%N else c.

Global Instance imports : Imports := {|
  getValidEnv e :=
    if bool_decide (e = Some (str "qa")) then Some (str "qa") else Some (str "prod");
  DEFAULT_MODES k :=
    if bool_decide (k ∈ [str "draft"; str "publish"]) then Some k else None;
  toLowerCase s := lower <$> s;
  API_KEY_AUTH_METHOD_value := str "apikey";
  getHubSpotApiOrigin e useLocalHost :=
    if truthy useLocalHost then str "https://local.hubapi.com"
    else str "https://api.hubapi.com";
  version := str "0.0.0";
|}.

(** [{ accountId: id, name: nm }] *)
Definition account (id : Z) (nm : option jsstring) : CLIAccount unit :=
  mkAccount nm None (Some id) None None None None None None None.

(** [{ accounts: l }] *)
Definition config_of (l : list (CLIAccount unit)) : CLIConfig unit :=
  mkConfig l None None None None None None.

(** The update [{ accountId: id }]. *)
Definition fields (id : Z) : FlatAccountFields unit :=
  mkFields (Some id) None None None None None None None None None None None None.

(** An instance holding the file-sourced configuration [c]. *)
Definition loaded (c : CLIConfig unit) : CLIConfiguration.t unit :=
  CLIConfiguration.mk (mkOptions None) false (Some c).

(** An instance holding a configuration sourced from the environment. *)
Definition loaded_from_env (c : CLIConfig unit) : CLIConfiguration.t unit :=
  CLIConfiguration.mk (mkOptions (Some true)) true (Some c).

Definition no_file : World := (None, None).

End Sample.

(** ** [validate] as the specification words it *)

Section ValidateSpec.
Context {TokenInfo : Type}.

(** An entry is acceptable after the entries [earlier]: it is non-empty, its
    [accountId] is truthy and differs from every earlier entry's, and a name,
    when it has one, differs from every earlier entry's name and holds no
    white space. *)
Definition entry_ok (earlier : list (option (CLIAccount TokenInfo)))
    (entry : option (CLIAccount TokenInfo)) : bool :=
  match entry with
  | None => false
  | Some a =>
      truthy (accountId a)
      && forallb (fun e => bool_decide ((e ≫= accountId) ≠ accountId a)) earlier
      && (if truthy (name a)
          then forallb (fun e => bool_decide ((e ≫= name) ≠ name a)) earlier
               && negb (test_whitespace (default [] (name a)))
          else true)
  end.

Fixpoint entries_ok (earlier l : list (option (CLIAccount TokenInfo))) : bool :=
  match l with
  | [] => true
  | entry :: rest => entry_ok earlier entry && entries_ok (earlier ++ [entry]) rest
  end.

Definition valid_as_specified (config : option (ParsedConfig TokenInfo)) : bool :=
  match config with
  | None => false
  | Some c =>
      match parsed_accounts c with
      | None => false
      | Some l => entries_ok [] l
      end
  end.

(** What the two maps of [validate] hold after the entries [earlier]. *)
Definition maps_hold (accountIdsMap : gmap Z bool)
    (accountNamesMap : gmap jsstring bool)
    (earlier : list (option (CLIAccount TokenInfo))) : Prop :=
  (∀ id, number_get accountIdsMap id
         = negb (forallb (fun e => bool_decide ((e ≫= accountId) ≠ Some id)) earlier))
  ∧ (∀ nm, truthy nm = true ->
           default false (accountNamesMap !! nm)
           = negb (forallb (fun e => bool_decide ((e ≫= name) ≠ Some nm)) earlier))
  ∧ (∀ nm b, accountNamesMap !! nm = Some b -> b = true).

End ValidateSpec.

(** ** [updateAccount] as the specification words it *)

(** A partial update merged into a prior value: a defined value replaces it,
    [undefined] keeps it. *)
Definition merge {A} (new old : option A) : option A :=
  match new with
  | Some v => Some v
  | None => old
  end.


(** The account ids of the configuration an instance holds after a call. *)
Definition accountIds_after {TokenInfo World A}
    (r : CLIConfiguration.Result (TokenInfo := TokenInfo) (World := World) A)
    : option (list (option Z)) :=
  match r with
  | CLIConfiguration.Return _ this' _ =>
      (fun c => accountId <$> accounts c) <$> CLIConfiguration.config this'
  | CLIConfiguration.Throw _ => None
  end.

(** ** A file system and an HTTP layer to run the examples on *)

Module SampleFs.

(** Paths joined with a slash. *)
Fixpoint join (parts : list jsstring) : jsstring :=
  match parts with
  | [] => str "."
  | [p] => p
  | p :: rest => p ++ str "/" ++ join rest
  end.

(** Every call succeeds, except that [extract-zip] fails when [extract_ok] is
    false; an extracted archive holds the one directory [project]. *)
Definition fs (extract_ok : bool) : Archive.FileSystem string := {|
  Archive.join := join;
  Archive.tmpdir := str "/tmp";
  Archive.mkdtemp prefix := inr (prefix ++ str "a1b2c3");
  Archive.ensureFile _ := inr ();
  Archive.writeFile _ _ := inr ();
  Archive.extract _ _ := if extract_ok then inr () else inl "bad archive"%string;
  Archive.readdir _ := inr [str "project"];
  Archive.copy _ _ := inr ();
|}.

Definition no_options : Archive.CopySourceToDestOptions :=
  Archive.mkCopyOptions None None.

(** Account 1 is set up with a personal access key; no other account is known. *)
Global Instance http : HttpImports unit unit := {|
  getAxiosConfig opts := {["url"%string := VStr (r_url opts)]};
  getAccountConfig id :=
    if bool_decide (id = 1%Z)
    then Some (mkAccount None None (Some 1%Z) (Some (str "personalaccesskey"))
                 None None None None None None)
    else None;
  getEnv _ := str "prod";
  FILE_MAPPER_API_PATH := str "content/filemapper/v1";
  ENVIRONMENTS_PROD := str "prod";
  getCwd := str "/work";
  path_resolve cwd p := cwd ++ str "/" ++ p;
|}.

End SampleFs.

(** ** [errors/apiErrors.ts] *)

(** A value interpolated into a message of [i18n]. *)
Inductive I18nValue :=
  | IStr (s : jsstring)
  | INum (n : Z).

(** [utils/lang] and [constants/api] are not part of this development. *)
Class ApiErrorImports := {
  i18n : string -> list (string * I18nValue) -> jsstring;
  (** [HTTP_METHOD_VERBS[method]] and [HTTP_METHOD_VERBS.DEFAULT] *)
  HTTP_METHOD_VERBS : jsstring -> option jsstring;
  HTTP_METHOD_VERBS_DEFAULT : jsstring;
  (** [HTTP_METHOD_PREPOSITIONS[method]] and [HTTP_METHOD_PREPOSITIONS.DEFAULT] *)
  HTTP_METHOD_PREPOSITIONS : jsstring -> option jsstring;
  HTTP_METHOD_PREPOSITIONS_DEFAULT : jsstring;
}.

Module ApiErrors.
Section ApiErrors.

(** The type of [errorTokens.line]; the code tests it and prints it. *)
Context {Line : Type} `{!Truthy Line} (line_text : Line -> jsstring).
Context `{!ApiErrorImports}.

(** [error.error]: the body of a failed response as the API sends it. An
    entry of [errors] is its [message]. *)
Record ErrorDetail := mkDetail {
  category : option jsstring;
  d_message : option jsstring;
  d_errors : option (list (option jsstring));
}.

(** An entry of [response.body.errors]: its [message] and [errorTokens.line]
    ([None] when there are no [errorTokens] or no [line]). *)
Record ValidationEntry := mkEntry {
  v_message : option jsstring;
  v_line : option Line;
}.

(** [response.body] *)
Record ResponseBody := mkBody {
  b_message : option jsstring;
  b_errors : option (list ValidationEntry);
}.

(** [StatusCodeError], with the fields these functions read. [response] is
    [None] when there is none, and holds [response.body] otherwise. *)
Record StatusCodeError := mkStatusCodeError {
  e_name : option jsstring;
  statusCode : option Z;
  e_error : option ErrorDetail;
  response : option (option ResponseBody);
  (** [error.options.method] *)
  e_method : option jsstring;
}.

(** [StatusCodeErrorContext] *)
Record StatusCodeErrorContext := mkContext {
  c_accountId : option Z;
  c_request : option jsstring;
  c_payload : option jsstring;
  c_projectName : option jsstring;
}.

(** What a function of return type [never] hands to [throwError]: the error it
    received, or [new Error(message, { cause })]. *)
Inductive Thrown :=
  | Rethrown (error : StatusCodeError)
  | NewError (message : jsstring) (cause : StatusCodeError).

(** A value printed in a template string or joined into one. *)
Definition print (o : option jsstring) : jsstring := default (str "undefined") o.

(** [arr.join(sep)]: [undefined] entries print as the empty string. *)
Fixpoint join (sep : jsstring) (arr : list (option jsstring)) : jsstring :=
  match arr with
  | [] => []
  | [x] => default [] x
  | x :: rest => default [] x ++ sep ++ join sep rest
  end.

Definition isApiStatusCodeError (err : StatusCodeError) : bool :=
  bool_decide (e_name err = Some (str "StatusCodeError"))
  || match statusCode err with
     | Some n => truthy n && (100 <=? n)%Z && (n <? 600)%Z
     | None => false
     end.

Definition isMissingScopeError (err : StatusCodeError) : bool :=
  bool_decide (e_name err = Some (str "StatusCodeError"))
  && bool_decide (statusCode err = Some 403%Z)
  && match e_error err with
     | Some detail => bool_decide (category detail = Some (str "MISSING_SCOPES"))
     | None => false
     end.

Definition isGatingError (err : StatusCodeError) : bool :=
  bool_decide (e_name err = Some (str "StatusCodeError"))
  && bool_decide (statusCode err = Some 403%Z)
  && match e_error err with
     | Some detail => bool_decide (category detail = Some (str "GATED"))
     | None => false
     end.

Definition isApiUploadValidationError (err : StatusCodeError) : bool :=
  bool_decide (statusCode err = Some 400%Z)
  && match response err with
     | Some (Some body) =>
         truthy (b_message body)
         || match b_errors body with Some _ => true | None => false end
     | _ => false
     end.

(** [HubSpotAuthError], and the partial one [isSpecifiedHubSpotAuthError]
    compares it with. *)
Record HubSpotAuthError := mkAuthError {
  a_name : option jsstring;
  a_statusCode : option Z;
  a_category : option jsstring;
  a_subCategory : option jsstring;
}.

Definition isSpecifiedHubSpotAuthError (err spec : HubSpotAuthError) : bool :=
  let statusCodeErr :=
    negb (truthy (a_statusCode spec))
    || bool_decide (a_statusCode err = a_statusCode spec) in
  let categoryErr :=
    negb (truthy (a_category spec))
    || bool_decide (a_category err = a_category spec) in
  let subCategoryErr :=
    negb (truthy (a_subCategory spec))
    || bool_decide (a_subCategory err = a_subCategory spec) in
  bool_decide (a_name err = Some (str "HubSpotAuthError"))
  && statusCodeErr && categoryErr && subCategoryErr.

(** The default of the parameter, [{ errors: [], message: '' }], stands in for
    an [undefined] body. *)
Definition parseValidationErrors (responseBody : option ResponseBody)
    : list (option jsstring) :=
  let body := default (mkBody (Some []) (Some [])) responseBody in
  let errorMessages :=
    if truthy (b_message body) then [b_message body] else [] in
  match b_errors body with
  | Some errors =>
      let specificErrors :=
        (fun error =>
           match v_line error with
           | Some line =>
               if truthy line
               then Some (str "line " ++ line_text line ++ str ": "
                          ++ print (v_message error))
               else v_message error
           | None => v_message error
           end) <$> errors in
      errorMessages ++ specificErrors
  | None => errorMessages
  end.

(** [None] when the function returns. *)
Definition logValidationErrors (error : StatusCodeError) : option Thrown :=
  let body := default None (response error) in
  let validationErrorMessages := parseValidationErrors body in
  match validationErrorMessages with
  | [] => None
  | _ :: _ => Some (NewError (join (str " ") validationErrorMessages) error)
  end.

Definition i18nKey : string := "errors.api".

(** The [switch] over [statusCode], its cases tried in order: the key and the
    parameters of the message it pushes. *)
Definition statusMessage (error : StatusCodeError) (context : StatusCodeErrorContext)
    (action : option jsstring) (messageDetail : jsstring)
    (isProjectMissingScopeError isProjectGatingError : bool)
    : string * list (string * I18nValue) :=
  let detail := [("messageDetail"%string, IStr messageDetail)] in
  let account :=
    [("accountId"%string,
      if truthy (c_accountId context) then INum (default 0%Z (c_accountId context))
      else IStr [])] in
  let generic := ((i18nKey ++ ".codes.generic")%string, detail) in
  match statusCode error with
  | None => generic
  | Some n =>
      if (n =? 400)%Z then ((i18nKey ++ ".codes.400")%string, detail)
      else if (n =? 401)%Z then ((i18nKey ++ ".codes.401")%string, detail)
      else if (n =? 403)%Z then
        if isProjectMissingScopeError
        then ((i18nKey ++ ".codes.403MissingScope")%string, account)
        else if isProjectGatingError
        then ((i18nKey ++ ".codes.403Gating")%string, account)
        else ((i18nKey ++ ".codes.403")%string, detail)
      else if (n =? 404)%Z then
        if truthy (c_request context)
        then ((i18nKey ++ ".codes.404Request")%string,
              [("action"%string,
                IStr (if truthy action then default [] action else str "request"));
               ("request"%string, IStr (default [] (c_request context)));
               ("account"%string,
                if truthy (c_accountId context)
                then INum (default 0%Z (c_accountId context)) else IStr [])])
        else ((i18nKey ++ ".codes.404")%string, detail)
      else if (n =? 429)%Z then ((i18nKey ++ ".codes.429")%string, detail)
      else if (n =? 503)%Z then ((i18nKey ++ ".codes.503")%string, detail)
      else if truthy n && (500 <=? n)%Z && (n <? 600)%Z
      then ((i18nKey ++ ".codes.500Generic")%string, detail)
      else if truthy n && (400 <=? n)%Z && (n <? 500)%Z
      then ((i18nKey ++ ".codes.400Generic")%string, detail)
      else generic
  end.

(** [errorMessage] of [throwApiStatusCodeError] when it is joined. *)
Definition errorMessage (error : StatusCodeError) (context : StatusCodeErrorContext)
    : list jsstring :=
  let method := e_method error in
  let isPutOrPost :=
    bool_decide (method = Some (str "PUT")) || bool_decide (method = Some (str "POST")) in
  let action :=
    match method with
    | Some m =>
        if truthy m
        then Some (default HTTP_METHOD_VERBS_DEFAULT
                     (if truthy (HTTP_METHOD_VERBS m) then HTTP_METHOD_VERBS m
                      else None))
        else Some m
    | None => None
    end in
  let preposition :=
    let found :=
      match method with
      | Some m => if truthy m then HTTP_METHOD_PREPOSITIONS m else Some m
      | None => None
      end in
    if truthy found then default [] found else HTTP_METHOD_PREPOSITIONS_DEFAULT in
  let request :=
    if truthy (c_request context)
    then Some (print action ++ str " " ++ preposition ++ str " " ++ [34%N]
               ++ default [] (c_request context) ++ [34%N])
    else action in
  let messageDetail :=
    if truthy request && truthy (c_accountId context)
    then i18n (i18nKey ++ ".messageDetail")
           [("request"%string, IStr (default [] request));
            ("accountId"%string, INum (default 0%Z (c_accountId context)))]
    else str "request" in
  let upload :=
    if isPutOrPost && truthy (c_payload context)
    then [i18n (i18nKey ++ ".unableToUpload")
            [("payload"%string, IStr (default [] (c_payload context)))]]
    else [] in
  let isProjectMissingScopeError :=
    isMissingScopeError error && truthy (c_projectName context) in
  let isProjectGatingError :=
    isGatingError error && truthy (c_projectName context) in
  let '(key, params) :=
    statusMessage error context action messageDetail
      isProjectMissingScopeError isProjectGatingError in
  let own :=
    if truthy (e_error error ≫= d_message)
       && negb isProjectMissingScopeError && negb isProjectGatingError
    then [default [] (e_error error ≫= d_message)] else [] in
  let each :=
    match e_error error ≫= d_errors with
    | Some errors => (fun m => [10%N; 45%N; 32%N] ++ print m) <$> errors
    | None => []
    end in
  upload ++ [i18n key params] ++ own ++ each.

Definition throwApiStatusCodeError (error : StatusCodeError)
    (context : StatusCodeErrorContext) : Thrown :=
  NewError (join (str " ") (Some <$> errorMessage error context)) error.

Definition throwApiError (error : StatusCodeError)
    (context : StatusCodeErrorContext) : Thrown :=
  if isApiStatusCodeError error then throwApiStatusCodeError error context
  else Rethrown error.

Definition throwApiUploadError (error : StatusCodeError)
    (context : StatusCodeErrorContext) : Thrown :=
  match (if isApiUploadValidationError error then logValidationErrors error
         else None) with
  | Some thrown => thrown
  | None => throwApiError error context
  end.

End ApiErrors.
Arguments ValidationEntry : clear implicits.
Arguments ResponseBody : clear implicits.
Arguments StatusCodeError : clear implicits.
Arguments Thrown : clear implicits.
End ApiErrors.

(** ** [lib/fs/read.ts]: [flattenAndRemoveSymlinks] *)

(** [STAT_TYPES] of [constants/files]. *)
Class StatTypes := {
  FILE : jsstring;
  DIRECTORY : jsstring;
  SYMBOLIC_LINK : jsstring;
}.

Module FsRead.
Section FsRead.
Context `{!StatTypes}.

(** [FileData] *)
Record FileData := mkFileData {
  filepath : jsstring;
  type : jsstring;
  files : option (list jsstring);
}.

(** The callback of [reduce]; the cases of the [switch] are tried in order. *)
Definition flatten_step (acc : list jsstring) (fileData : FileData) : list jsstring :=
  if bool_decide (type fileData = FILE) then acc ++ [filepath fileData]
  else if bool_decide (type fileData = DIRECTORY)
  then acc ++ (if truthy (files fileData) then default [] (files fileData) else [])
  else if bool_decide (type fileData = SYMBOLIC_LINK) then acc
  else acc.

Definition flattenAndRemoveSymlinks (filesData : list FileData) : list jsstring :=
  fold_left flatten_step filesData [].

(** What an entry adds to the accumulator. *)
Definition contribution (fileData : FileData) : list jsstring :=
  flatten_step [] fileData.

End FsRead.
End FsRead.

(** ** More implementations to run examples on *)

Module SampleMore.

Global Instance constants : ConfigConstants := {|
  MIN_HTTP_TIMEOUT := 3000%Z;
  ALL_MODES := [str "draft"; str "publish"];
  PROD := str "prod";
|}.

Global Instance apiErrors : ApiErrorImports := {|
  i18n key _ := str key;
  HTTP_METHOD_VERBS m :=
    if bool_decide (m = str "GET") then Some (str "request") else None;
  HTTP_METHOD_VERBS_DEFAULT := str "request";
  HTTP_METHOD_PREPOSITIONS m :=
    if bool_decide (m = str "GET") then Some (str "for") else None;
  HTTP_METHOD_PREPOSITIONS_DEFAULT := str "for";
|}.

Global Instance statTypes : StatTypes := {|
  FILE := str "file";
  DIRECTORY := str "dir";
  SYMBOLIC_LINK := str "symlink";
|}.

(** The configuration with the accounts 1 ([dev]) and 2 ([prod]), [dev] being
    the default account. *)
Definition two_accounts : CLIConfig unit :=
  mkConfig [Sample.account 1 (Some (str "dev")); Sample.account 2 (Some (str "prod"))]
    (Some (Name (str "dev"))) None None None None None.

(** A file system on which every call succeeds and the extracted archive is
    empty. *)
Definition fs_empty : Archive.FileSystem string := {|
  Archive.join := SampleFs.join;
  Archive.tmpdir := str "/tmp";
  Archive.mkdtemp prefix := inr (prefix ++ str "a1b2c3");
  Archive.ensureFile _ := inr ();
  Archive.writeFile _ _ := inr ();
  Archive.extract _ _ := inr ();
  Archive.readdir _ := inr [];
  Archive.copy _ _ := inr ();
|}.

End SampleMore.

(** The error every mutator of the class raises while no configuration is
    loaded. *)
Definition noConfigLoaded : JsError :=
  ErrorWithMessage "config.cliConfiguration.noConfigLoaded".

(** * Properties *)

(** ** [getAccount] *)

Section GetAccount.
Context {TokenInfo World : Type} `{!ConfigFile TokenInfo World} `{!Imports}.
Import CLIConfiguration.

Implicit Types (c : CLIConfig TokenInfo) (a : CLIAccount TokenInfo) (s : jsstring).


Lemma find_by_name_name s l a :
  find_by_name s l = Some a -> name a = Some s.
Proof.
  unfold find_by_name. induction l as [|x l IH]; simpl; [done|].
  destruct (bool_decide (name x = Some s)) eqn:E.
  - intros [= <-]. by apply bool_decide_eq_true in E.
  - exact IH.
Qed.

(** A truthy number is looked up among the account ids. *)
Lemma getAccount_Id c (n : Z) :
  n ≠ 0%Z -> getAccount (Some c) (Some (Id n)) = find_by_id n (accounts c).
Proof.
  intros Hn.
  assert (Ht : truthy n = true).
  { unfold truthy, truthy_Z. by destruct (Z.eqb_spec n 0). }
  unfold getAccount. change (truthy (Some (Id n))) with (truthy n).
  rewrite Ht. cbn.
  change (negb (n =? 0)%Z) with (truthy n). by rewrite Ht.
Qed.

(** A falsy argument is replaced by the default account. *)
Lemma getAccount_falsy (config : option (CLIConfig TokenInfo)) (arg : option NameOrId) :
  truthy arg = false ->
  getAccount config arg = getAccount config (getDefaultAccount config).
Proof.
  intros Harg. destruct config as [c|]; [|done].
  unfold getAccount. rewrite Harg.
  generalize (getDefaultAccount (Some c)); intros d.
  destruct (truthy d) eqn:E; cbv iota; by rewrite ?E.
Qed.



(** [parseInt] with and without the radix 10 on a run of digits. *)
Lemma parse_digits_all s : ∀ acc,
  forallb isDigit s = true ->
  parse_digits 10 s (Some acc)
  = Some (fold_left (fun acc ch => 10 * acc + (Z.of_N ch - 48))%Z s acc).
Proof.
  induction s as [|ch s IH]; intros acc Hd; [done|].
  simpl in Hd. apply andb_prop in Hd as [Hc Hs]. simpl.
  unfold digit_of. rewrite Hc.
  assert (Hlt : (Z.of_N ch - 48 <? 10)%Z = true).
  { unfold isDigit in Hc. apply andb_prop in Hc as [H1 H2].
    apply N.leb_le in H1, H2. apply Z.ltb_lt. lia. }
  rewrite Hlt. simpl. by rewrite IH.
Qed.

Lemma isDigit_not_space ch : isDigit ch = true -> isWhiteSpace ch = false.
Proof.
  unfold isDigit, isWhiteSpace. intros [H1 H2]%andb_prop.
  apply N.leb_le in H1, H2.
  repeat match goal with
  | |- context [(?a <=? ?b)%N] => destruct (N.leb_spec a b)
  | |- context [(?a =? ?b)%N] => destruct (N.eqb_spec a b)
  end; simpl; try reflexivity; lia.
Qed.

Lemma toNumber_0 : toNumber 0 = Finite 0.
Proof. reflexivity. Qed.

(** Up to 2^53 the Number value of an integer is the integer. *)
Lemma toNumber_exact n :
  (Z.abs n <= 9007199254740992)%Z -> toNumber n = Finite n.
Proof.
  intros Hn. unfold toNumber.
  by destruct (Z.leb_spec (Z.abs n) 9007199254740992); [|lia].
Qed.

Lemma decimal_nonneg s : forallb isDigit s = true -> (0 <= decimal s)%Z.
Proof.
  assert (Hfold : ∀ acc, (0 <= acc)%Z -> forallb isDigit s = true ->
              (0 <= fold_left (fun acc ch => 10 * acc + (Z.of_N ch - 48)) s acc)%Z).
  { induction s as [|ch s IH]; intros acc Hacc Hd; [done|].
    simpl in Hd. apply andb_prop in Hd as [Hc Hs]. simpl. apply IH; [|done].
    unfold isDigit in Hc. apply andb_prop in Hc as [H1 H2].
    apply N.leb_le in H1, H2. lia. }
  intros Hd. apply Hfold; [|done]. lia.
Qed.

(** On a run of digits [parseInt(s, 10)] is the Number value of the integer
    the digits spell. *)
Lemma parseInt10_digits s :
  test_digits s = true -> parseInt10 s = toNumber (decimal s).
Proof.
  unfold test_digits. intros [Hne Hd]%andb_prop.
  destruct s as [|ch s]; [done|].
  pose proof Hd as Hd'. simpl in Hd'. apply andb_prop in Hd' as [Hc Hs].
  unfold parseInt10, parseIntRadix. simpl trimStart. rewrite (isDigit_not_space _ Hc).
  assert (Hch : (48 <= ch <= 57)%N).
  { unfold isDigit in Hc. apply andb_prop in Hc as [H1 H2].
    by apply N.leb_le in H1, H2. }
  assert (Hrest : match parse_digits 10 (ch :: s) None with
                  | None => NaN
                  | Some mathInt =>
                      if (mathInt =? 0)%Z
                      then (if (1 =? -1)%Z then NegZero else Finite 0)
                      else toNumber (1 * mathInt)
                  end = toNumber (decimal (ch :: s))).
  { simpl parse_digits. unfold digit_of. rewrite Hc.
    assert (Hlt : (Z.of_N ch - 48 <? 10)%Z = true) by (apply Z.ltb_lt; lia).
    rewrite Hlt. cbn [default from_option Datatypes.id].
    rewrite parse_digits_all by done.
    change (fold_left _ s _) with (decimal (ch :: s)).
    destruct (Z.eqb_spec (decimal (ch :: s)) 0) as [->|_]; [done|].
    by rewrite Z.mul_1_l. }
  assert (Hcases : ch ∈ [48; 49; 50; 51; 52; 53; 54; 55; 56; 57]%N).
  { rewrite !elem_of_cons. lia. }
  rewrite !elem_of_cons in Hcases.
  destruct Hcases as [->|[->|[->|[->|[->|[->|[->|[->|[->|[->|Hnil]]]]]]]]]];
    try exact Hrest; [|by apply elem_of_nil in Hnil].
  destruct s as [|x s']; exact Hrest.
Qed.

Lemma parseInt_digits s :
  test_digits s = true -> parseInt s = parseInt10 s.
Proof.
  unfold test_digits. intros [Hne Hd]%andb_prop.
  destruct s as [|ch s]; [done|].
  pose proof Hd as Hd'. simpl in Hd'. apply andb_prop in Hd' as [Hc Hs].
  unfold parseInt, parseInt10, parseIntRadix.
  simpl trimStart. rewrite (isDigit_not_space _ Hc).
  assert (Hch : (48 <= ch <= 57)%N).
  { unfold isDigit in Hc. apply andb_prop in Hc as [H1 H2].
    by apply N.leb_le in H1, H2. }
  assert (Hcases : ch ∈ [48; 49; 50; 51; 52; 53; 54; 55; 56; 57]%N).
  { rewrite !elem_of_cons. lia. }
  rewrite !elem_of_cons in Hcases.
  destruct Hcases as [->|[->|[->|[->|[->|[->|[->|[->|[->|[->|Hnil]]]]]]]]]];
    try reflexivity; [|by apply elem_of_nil in Hnil].
  destruct s as [|x s']; [reflexivity|].
  simpl in Hs. apply andb_prop in Hs as [Hx _].
  assert (Hx' : ((x =? 120) || (x =? 88))%N = false).
  { unfold isDigit in Hx. apply andb_prop in Hx as [H1 H2].
    apply N.leb_le in H1, H2.
    destruct (N.eqb_spec x 120), (N.eqb_spec x 88); simpl; try done; lia. }
  cbn [Z.eqb negb andb orb]. by rewrite Hx'.
Qed.

(** What [parseInt(s, 10)] returns for a run of digits: an integer that is
    not negative, or the positive infinity. *)
Lemma parseInt10_digits_cases s :
  test_digits s = true ->
  (∃ n, parseInt10 s = Finite n ∧ (0 <= n)%Z) ∨ parseInt10 s = Infinity false.
Proof.
  intros Hd. rewrite (parseInt10_digits _ Hd).
  apply andb_prop in Hd as [_ Hd]. pose proof (decimal_nonneg _ Hd) as H0.
  unfold toNumber. rewrite (Z.abs_eq _ H0).
  destruct (_ <=? 9007199254740992)%Z; [left; by eexists|].
  destruct (2 ^ 1024 <=? _)%Z eqn:Hinf.
  - right. by destruct (Z.ltb_spec (decimal s) 0); [lia|].
  - left. eexists. split; [done|].
    destruct (decimal s) as [|p|p] eqn:E; [done| |lia].
    cbn [Z.sgn]. rewrite Z.mul_1_l. apply Z.shiftl_nonneg.
    set (q := Z.shiftr _ _).
    assert (0 <= q)%Z by (apply Z.shiftr_nonneg; lia).
    destruct (_ || _); lia.
Qed.



End GetAccount.


(** Beyond 2^53 the id that is looked up is the double nearest to what the
    digits spell, and 309 digits [9] give [Infinity], which finds nothing. *)
Example getAccount_digits_beyond_2_53 :
  let big := Sample.account 9007199254740992 (Some (str "big")) in
  parseInt10 (str "9007199254740993") = Finite 9007199254740992
  ∧ CLIConfiguration.getAccount (Some (Sample.config_of [big]))
      (Some (Name (str "9007199254740993"))) = Some big
  ∧ parseInt10 (repeat 57%N 309) = Infinity false
  ∧ CLIConfiguration.getAccount (Some (Sample.config_of [big]))
      (Some (Name (repeat 57%N 309))) = None.
Proof. repeat split; vm_compute; reflexivity. Qed.

(** ** [write], [delete] and [load] *)

Section ReadWrite.
Context {TokenInfo World : Type} `{!ConfigFile TokenInfo World} `{!Imports}.
Import CLIConfiguration.

Implicit Types (this : t TokenInfo) (w : World) (c : CLIConfig TokenInfo).

(** What [write] does, in one equation. *)
Lemma write_spec updatedConfig this w :
  write updatedConfig this w =
    if useEnvConfig this then Return (config this) this w
    else
      let c' := if truthy updatedConfig then updatedConfig else config this in
      Return c' (mk (options this) false c')
        (match c' with Some c => writeConfigToFile c w | None => w end).
Proof.
  unfold write. run.
  destruct this as [o e c]; simpl. destruct e; simpl; [done|].
  destruct updatedConfig as [u|]; simpl.
  - done.
  - by destruct c.
Qed.

Lemma delete_env this w :
  useEnvConfig this = true -> delete this w = Return () this w.
Proof. intros He. unfold delete. run. by rewrite He. Qed.

(** C4: while the configuration in memory comes from the environment
    ([useEnvConfig] is true), [write] returns the configuration in memory and
    leaves both it and the file as they are, whatever [updatedConfig] is, and
    [delete] leaves both as they are; a call of [write] or [delete] after
    which the file differs was made on file-sourced configuration. *)
Theorem write_delete_frame_under_env this w updatedConfig :
  useEnvConfig this = true ->
  write updatedConfig this w = Return (config this) this w
  ∧ delete this w = Return () this w
  ∧ (∀ this0 r this' w',
       (write updatedConfig this0 w = Return r this' w'
        ∨ (∃ u, delete this0 w = Return u this' w')) ->
       w' ≠ w -> useEnvConfig this0 = false).
Proof.
  intros He. split; [|split].
  - by rewrite write_spec, He.
  - by apply delete_env.
  - intros this0 r this' w' Hcall Hw.
    destruct (useEnvConfig this0) eqn:E0; [exfalso|done].
    destruct Hcall as [Hwr|[u Hdel]].
    + rewrite write_spec, E0 in Hwr. by injection Hwr as _ _ <-.
    + rewrite (delete_env _ _ E0) in Hdel. by injection Hdel as _ _ <-.
Qed.

(** C9: with [options.useEnv] falsy, [load] returns, and leaves in
    [this.config], exactly what [loadConfigFromFile] returned ([null] when
    there is no file configuration), with [useEnvConfig] false and the file
    untouched. *)
Theorem load_from_file_is_loadConfigFromFile this w :
  truthy (useEnv (options this)) = false ->
  load this w =
    Return (loadConfigFromFile w)
      (mk (options this) false (loadConfigFromFile w)) w.
Proof.
  intros Hu. unfold load. run. rewrite Hu.
  by destruct (loadConfigFromFile w).
Qed.

End ReadWrite.

Lemma write_delete_frame_under_env_witness :
  let this := Sample.loaded_from_env (Sample.config_of [Sample.account 1 None]) in
  let w : Sample.World := (Some (Sample.config_of [Sample.account 1 None]), None) in
  CLIConfiguration.useEnvConfig this = true
  ∧ CLIConfiguration.write (Some (Sample.config_of [])) this w
    = CLIConfiguration.Return (CLIConfiguration.config this) this w
  ∧ CLIConfiguration.delete this w = CLIConfiguration.Return () this w.
Proof.
  split; [reflexivity|].
  pose proof (write_delete_frame_under_env
                (Sample.loaded_from_env (Sample.config_of [Sample.account 1 None]))
                ((Some (Sample.config_of [Sample.account 1 None]), None) : Sample.World)
                (Some (Sample.config_of [])) eq_refl) as (Hw & Hd & _).
  split; [exact Hw|exact Hd].
Defined.

Lemma load_from_file_is_loadConfigFromFile_witness :
  let this := CLIConfiguration.new (TokenInfo := unit) in
  truthy (useEnv (CLIConfiguration.options this)) = false
  ∧ CLIConfiguration.load this Sample.no_file
    = CLIConfiguration.Return None this Sample.no_file.
Proof.
  split; [reflexivity|].
  exact (load_from_file_is_loadConfigFromFile
           (CLIConfiguration.new (TokenInfo := unit)) Sample.no_file eq_refl).
Defined.

(** ** [updateAccount] *)

Section UpdateAccount.
Context {TokenInfo World : Type} `{!ConfigFile TokenInfo World} `{!Imports}.
Import CLIConfiguration.

Implicit Types (this : t TokenInfo) (w : World) (c : CLIConfig TokenInfo).
Implicit Types (u : FlatAccountFields TokenInfo) (prior : CLIAccount TokenInfo).

(** The completed account, field by field. *)
Lemma completedAccountConfig_fields u id (cur : option (CLIAccount TokenInfo)) :
  let prior := default empty_account cur in
  let authType' := merge (u_authType u) (authType prior) in
  completedAccountConfig u id cur =
  mkAccount
    (merge (u_name u) (name prior))
    (merge (getValidEnv (js_or (u_env u) (cur ≫= env))) (env prior))
    (Some id)
    authType'
    (merge (next_auth u cur) (auth prior))
    (if bool_decide (authType' = Some API_KEY_AUTH_METHOD_value)
     then merge (u_apiKey u) (apiKey prior) else apiKey prior)
    (match u_defaultMode u with
     | Some m => merge (DEFAULT_MODES (if truthy m then toLowerCase m else m))
                   (defaultMode prior)
     | None => defaultMode prior
     end)
    (merge (u_personalAccessKey u) (personalAccessKey prior))
    (merge (u_sandboxAccountType u) (sandboxAccountType prior))
    (merge (u_parentAccountId u) (parentAccountId prior)).
Proof.
  intros prior authType'. subst authType'. unfold completedAccountConfig.
  generalize (next_auth u cur); intros au.
  generalize (getValidEnv (js_or (u_env u) (cur ≫= env))); intros ev.
  fold prior. destruct prior as [n e i ty a k dm pak sat pai].
  destruct u as [uid uk uat ucid ucs udm uenv un upai upak usat usc uti]. simpl.
  destruct un, ev, uat, au; simpl;
    (destruct (bool_decide _); simpl);
    destruct uk, udm as [m|]; simpl;
    try (destruct (truthy m); simpl);
    try (destruct (DEFAULT_MODES _); simpl);
    destruct upak, usat, upai; reflexivity.
Qed.

Lemma completedAccountConfig_accountId u id cur :
  accountId (completedAccountConfig u id cur) = Some id.
Proof. by rewrite completedAccountConfig_fields. Qed.

(** An account without [authType], updated without one, keeps its [apiKey],
    whatever the API key method is called. *)
Lemma completedAccountConfig_apiKey_guard u id prior :
  u_authType u = None -> authType prior = None ->
  apiKey (completedAccountConfig u id (Some prior)) = apiKey prior.
Proof.
  intros Hu Hp. rewrite completedAccountConfig_fields. simpl.
  by rewrite Hu, Hp.
Qed.

(** [updateAccount] on an account that is in the configuration. *)
Lemma updateAccount_present u writeUpdate this w c id prior :
  config this = Some c -> u_accountId u = Some id -> id ≠ 0%Z ->
  getAccount (Some c) (Some (Id id)) = Some prior ->
  let completed := completedAccountConfig u id (Some prior) in
  let c' := with_accounts c
              (array_set (getConfigAccountIndex (Some c) id) completed (accounts c)
               ++ [completed]) in
  updateAccount u writeUpdate this w =
    Return (Some completed) (mk (options this) (useEnvConfig this) (Some c'))
      (if writeUpdate && negb (useEnvConfig this) then writeConfigToFile c' w else w).
Proof.
  intros Hc Hu Hid Hget completed c'.
  unfold updateAccount. rewrite Hu.
  assert (Ht : truthy (Some id) = true).
  { change (truthy (Some id)) with (negb (id =? 0)%Z). by destruct (Z.eqb_spec id 0). }
  rewrite Ht. cbn [negb default from_option Datatypes.id]. run. rewrite Hc, Hget.
  change (truthy (Some prior)) with true. cbv iota.
  change (truthy (array_set (getConfigAccountIndex (Some c) id)
        (completedAccountConfig u id (Some prior)) (accounts c))) with true.
  cbv iota. fold completed. fold c'.
  destruct writeUpdate; simpl; [|done].
  rewrite write_spec. simpl. by destruct (useEnvConfig this).
Qed.

Lemma findIndex_find {A} (p : A -> bool) (l : list A) x :
  find p l = Some x -> ∃ i, findIndex p l = Some i ∧ i < length l.
Proof.
  induction l as [|y l IH]; simpl; [done|].
  destruct (p y).
  - intros _. exists 0. split; [done|lia].
  - intros Hf. destruct (IH Hf) as (i & -> & Hi). exists (S i). split; [done|lia].
Qed.

(** After [updateAccount] on an account that is in the configuration, the
    completed account stands both where the prior one stood and at the end of
    the list: its [accountId] occurs twice. *)
Lemma updateAccount_present_twice u writeUpdate this w c id prior :
  config this = Some c -> u_accountId u = Some id -> id ≠ 0%Z ->
  getAccount (Some c) (Some (Id id)) = Some prior ->
  ∃ l, accountIds_after (updateAccount u writeUpdate this w) = Some l
       ∧ length l = S (length (accounts c))
       ∧ ¬ NoDup l.
Proof.
  intros Hc Hu Hid Hget.
  rewrite (updateAccount_present _ _ _ _ _ _ _ Hc Hu Hid Hget). simpl.
  eexists. split; [reflexivity|].
  rewrite getAccount_Id in Hget by done.
  destruct (findIndex_find _ _ _ Hget) as (i & Hi & Hlt). rewrite Hi. simpl.
  set (completed := completedAccountConfig u id (Some prior)).
  split.
  - rewrite length_fmap, length_app, length_insert. simpl. lia.
  - intros Hnd. rewrite NoDup_alt in Hnd.
    assert (i = length (accounts c)); [|lia].
    apply (Hnd i (length (accounts c)) (Some id)).
    + rewrite list_lookup_fmap, lookup_app_l by (rewrite length_insert; lia).
      rewrite list_lookup_insert_eq by done. simpl. subst completed.
      by rewrite completedAccountConfig_accountId.
    + rewrite list_lookup_fmap.
      replace (length (accounts c)) with (length (<[i:=completed]> (accounts c)) + 0)
        by (rewrite length_insert; lia).
      rewrite lookup_app_r by lia.
      replace (_ + 0 - _) with 0 by lia. simpl. subst completed.
      by rewrite completedAccountConfig_accountId.
Qed.


End UpdateAccount.

(** C1 (the code departs from the claim): the configuration holds one account,
    with id 1, and [updateAccount({ accountId: 1 })] leaves it holding two
    accounts with id 1. *)
Theorem updateAccount_existing_account_is_appended_again :
  let this := Sample.loaded (Sample.config_of [Sample.account 1 None]) in
  NoDup (accountId <$> [Sample.account 1 None])
  ∧ accountIds_after
      (CLIConfiguration.updateAccount (Sample.fields 1) true this Sample.no_file)
    = Some [Some 1%Z; Some 1%Z].
Proof.
  split; [|reflexivity].
  apply NoDup_singleton.
Qed.



(** ** [getRequestOptions] *)

Section GetRequestOptionsFacts.
Context {TokenInfo World : Type} `{!ConfigFile TokenInfo World} `{!Imports}.
Import CLIConfiguration.

Implicit Types (this : t TokenInfo) (w : World) (c : CLIConfig TokenInfo).
Implicit Types (requestOptions : gmap string JsVal).

(** A key of an object literal that ends in a spread. *)
Lemma lookup_spread requestOptions (literal : gmap string JsVal) k :
  (requestOptions ∪ literal) !! k
  = match requestOptions !! k with
    | Some v => Some v
    | None => literal !! k
    end.
Proof. rewrite lookup_union. by destruct (requestOptions !! k), (literal !! k). Qed.

(** C7, as the code has it: when a configuration is loaded, or can be loaded,
    [getRequestOptions] returns an object in which [timeout], [headers] and
    [baseUrl] are the values of the same keys of the [requestOptions] argument
    where it has them, and otherwise: [timeout] is the configuration's
    [httpTimeout] when that is set and not zero (nor [NaN]) and 15000 if not,
    [headers] is
    the default User-Agent header, and [baseUrl] is [getHubSpotApiOrigin] of
    the [env] argument and of [httpUseLocalhost], or of [false] when
    [localHostOverride] is set. *)
Theorem getRequestOptions_keys options requestOptions this w c this' w' :
  getAndLoadConfigIfNeeded None this w = Return (Some c) this' w' ->
  ∃ result,
    getRequestOptions options requestOptions this w = Return result this' w'
    ∧ result !! "timeout"%string
      = Some (default
                (VNum match httpTimeout c with
                      | Some n => if truthy n then n else Finite 15000
                      | None => Finite 15000
                      end)
                (requestOptions !! "timeout"%string))
    ∧ result !! "headers"%string
      = Some (default (VHeaders DEFAULT_USER_AGENT_HEADERS)
                (requestOptions !! "headers"%string))
    ∧ result !! "baseUrl"%string
      = Some (default
                (VStr (getHubSpotApiOrigin (o_env options)
                         (if truthy (o_localHostOverride options) then Some false
                          else httpUseLocalhost c)))
                (requestOptions !! "baseUrl"%string)).
Proof.
  intros Hload. unfold getRequestOptions.
  unfold mbind, M_bind. rewrite Hload. unfold mret, M_ret.
  eexists. split; [reflexivity|].
  rewrite !lookup_spread. repeat split.
  - destruct (requestOptions !! "timeout"%string); [done|].
    rewrite !lookup_insert_ne, lookup_insert_eq by done. simpl.
    destruct (httpTimeout c) as [n|]; [|done].
    change (truthy (Some n)) with (truthy n).
    by destruct (truthy n).
  - destruct (requestOptions !! "headers"%string); [done|].
    by rewrite lookup_insert_ne, lookup_insert_eq by done.
  - destruct (requestOptions !! "baseUrl"%string); [done|].
    by rewrite lookup_insert_eq.
Qed.

End GetRequestOptionsFacts.

(** No [httpTimeout] is configured and [requestOptions] is [{ timeout: 1 }]:
    the returned [timeout] is 1. *)
Lemma getRequestOptions_timeout_overridden :
  let c := Sample.config_of [] in
  let this := Sample.loaded c in
  httpTimeout c = None
  ∧ ∃ result this' w',
      getRequestOptions (mkGetRequestOptionsOptions None None)
        {["timeout"%string := VNum (Finite 1)]} this Sample.no_file
      = CLIConfiguration.Return result this' w'
      ∧ result !! "timeout"%string = Some (VNum (Finite 1))
      ∧ result !! "timeout"%string ≠ Some (VNum (Finite 15000)).
Proof.
  split; [reflexivity|].
  eexists _, _, _. split; [reflexivity|].
  assert (Ht : ∀ literal : gmap string JsVal,
             ({["timeout"%string := VNum (Finite 1)]} ∪ literal) !! "timeout"%string
             = Some (VNum (Finite 1))).
  { intros literal. apply lookup_union_Some_l, lookup_singleton_eq. }
  by rewrite Ht.
Qed.

Lemma getRequestOptions_keys_witness :
  let c := mkConfig (TokenInfo := unit) [] None None None (Some (Finite 3000)) None None in
  ∃ result this' w',
    getRequestOptions (mkGetRequestOptionsOptions None None) ∅
      (Sample.loaded c) Sample.no_file
    = CLIConfiguration.Return result this' w'
    ∧ result !! "timeout"%string = Some (VNum (Finite 3000)).
Proof.
  destruct (getRequestOptions_keys (mkGetRequestOptionsOptions None None) ∅
              (Sample.loaded
                 (mkConfig (TokenInfo := unit) [] None None None (Some (Finite 3000)) None None))
              Sample.no_file
              (mkConfig (TokenInfo := unit) [] None None None (Some (Finite 3000)) None None)
              _ _ eq_refl)
    as (result & Hrun & Ht & _).
  eexists _, _, _. split; [exact Hrun|].
  by rewrite Ht, lookup_empty.
Defined.

(** ** [extractZipArchive] *)

Section ArchiveFacts.
Context {BaseError : Type} {fileSystem : Archive.FileSystem BaseError}.
Import Archive.

(** C3, as the code has it: when every file system call succeeds and the
    extracted directory has a first entry (or [includesRootDir] is false),
    [extractZipArchive] creates the temporary directory, writes the buffer to
    the zip file in it, extracts the zip file, copies the extracted source to
    the destination and then asks for the removal of the temporary directory it
    created, in this order; it waits for every call but the removal, and its
    promise resolves to [true]. *)
Theorem extractZipArchive_success (zip : Buffer) (name dest : jsstring)
    (opts : CopySourceToDestOptions) (tmpDir rootDir : jsstring)
    (files : list jsstring) :
  let prefix := join [tmpdir; str "hubspot-temp-" ++ name ++ str "-"] in
  let zipPath := join [tmpDir; str "hubspot-temp.zip"] in
  let extractPath := join [tmpDir; str "extracted"] in
  let withRoot := default true (includesRootDir opts) in
  let src :=
    join ([extractPath] ++ (if withRoot then [rootDir] else [])
          ++ (if truthy (sourceDir opts) then [default [] (sourceDir opts)] else [])) in
  mkdtemp prefix = inr tmpDir ->
  truthy tmpDir = true ->
  ensureFile zipPath = inr () ->
  writeFile zipPath zip = inr () ->
  extract zipPath extractPath = inr () ->
  (withRoot = true ->
   readdir extractPath = inr files ∧ head files = Some rootDir
   ∧ truthy rootDir = true) ->
  copy src dest = inr () ->
  extractZipArchive (Some zip) name dest opts =
    ([mkEvent (Mkdtemp prefix) true; mkEvent (EnsureFile zipPath) true;
      mkEvent (WriteFile zipPath zip 511) true;
      mkEvent (Extract zipPath extractPath) true]
     ++ (if withRoot then [mkEvent (Readdir extractPath) true] else [])
     ++ [mkEvent (Copy src dest) true; mkEvent (Remove tmpDir) false],
     Resolved true).
Proof.
  intros prefix zipPath extractPath withRoot src Hmk Htmp Hens Hwr Hex Hroot Hcp.
  assert (Hzip : extractZip name zip =
            ([mkEvent (Mkdtemp prefix) true; mkEvent (EnsureFile zipPath) true;
              mkEvent (WriteFile zipPath zip 511) true;
              mkEvent (Extract zipPath extractPath) true],
             Resolved (mkZipData extractPath tmpDir))).
  { unfold extractZip, await. fold prefix. rewrite Hmk.
    fold zipPath. rewrite Hens, Hwr. fold extractPath. by rewrite Hex. }
  assert (Hcopy : copySourceToDest extractPath dest opts =
            ((if withRoot then [mkEvent (Readdir extractPath) true] else [])
             ++ [mkEvent (Copy src dest) true], Resolved true)).
  { unfold copySourceToDest, await. fold withRoot. subst src.
    destruct withRoot.
    - destruct Hroot as (Hrd & Hhead & Hrt); [done|].
      rewrite Hrd, Hhead. change (truthy (Some rootDir)) with (truthy rootDir).
      rewrite Hrt. cbn [negb default from_option Datatypes.id].
      destruct (truthy (sourceDir opts)); simpl in Hcp; simpl; by rewrite Hcp.
    - destruct (truthy (sourceDir opts)); simpl in Hcp; simpl; by rewrite Hcp. }
  unfold extractZipArchive, mbind, P_bind. rewrite Hzip. cbn [Archive.extractDir].
  rewrite Hcopy. unfold cleanupTempDir. cbn [Archive.tmpDir]. rewrite Htmp.
  cbn [negb fire mret P_ret]. by destruct withRoot.
Qed.

(** Closes a goal whose hypothesis [H] finds a removal in a list of calls that
    has none. *)
Ltac no_removal H :=
  simpl in H;
  repeat (apply elem_of_cons in H as [H|H]; [discriminate H|]);
  by apply elem_of_nil in H.

Lemma extractZip_no_removal name zip p :
  Remove p ∉ call <$> (extractZip name zip).1.
Proof.
  unfold extractZip, await. intros Hin.
  destruct (mkdtemp _) as [?|tmp]; [destruct (_ || _); no_removal Hin|].
  destruct (ensureFile _) as [?|?]; [destruct (_ || _); no_removal Hin|].
  destruct (writeFile _ _) as [?|?]; [destruct (_ || _); no_removal Hin|].
  destruct (extract _ _) as [?|?]; no_removal Hin.
Qed.

Lemma copySourceToDest_no_removal src dest opts p :
  Remove p ∉ call <$> (copySourceToDest src dest opts).1.
Proof.
  unfold copySourceToDest, await. intros Hin.
  destruct (default true _).
  - destruct (readdir _) as [?|files]; [no_removal Hin|].
    destruct (negb _).
    + no_removal Hin.
    + destruct (truthy (sourceDir opts)); destruct (copy _ _); no_removal Hin.
  - destruct (truthy (sourceDir opts)); destruct (copy _ _); no_removal Hin.
Qed.

(** X16: whenever the promise of [extractZipArchive] is rejected, no removal
    of a directory was asked for: the routine has no [finally], so a failed
    step leaves the temporary directory behind. *)
Lemma extractZipArchive_rejected_no_removal zip name dest opts e p :
  (extractZipArchive zip name dest opts).2 = Rejected e ->
  Remove p ∉ calls (extractZipArchive zip name dest opts).
Proof.
  unfold calls, extractZipArchive. destruct zip as [zip|]; [|done].
  unfold mbind, P_bind.
  pose proof (extractZip_no_removal name zip p) as Hzip.
  destruct (extractZip name zip) as [t1 [data|e1]]; simpl in *; [|done].
  pose proof (copySourceToDest_no_removal (extractDir data) dest opts p) as Hcopy.
  destruct (copySourceToDest _ dest opts) as [t2 [ok|e2]]; simpl in *.
  - unfold cleanupTempDir. by destruct (negb _).
  - intros _. rewrite fmap_app. by intros [Hin|Hin]%elem_of_app.
Qed.

End ArchiveFacts.

(** The zip file cannot be extracted: the promise rejects after the temporary
    directory was created and written to, and no removal was asked for. *)
Lemma extractZipArchive_failure_leaves_tmpDir :
  let run := Archive.extractZipArchive (fileSystem := SampleFs.fs false)
               (Some [80; 75]%N) (str "app") (str "/dest") SampleFs.no_options in
  Archive.calls run
  = [Archive.Mkdtemp (str "/tmp/hubspot-temp-app-");
     Archive.EnsureFile (str "/tmp/hubspot-temp-app-a1b2c3/hubspot-temp.zip");
     Archive.WriteFile (str "/tmp/hubspot-temp-app-a1b2c3/hubspot-temp.zip")
       [80; 75]%N 511;
     Archive.Extract (str "/tmp/hubspot-temp-app-a1b2c3/hubspot-temp.zip")
       (str "/tmp/hubspot-temp-app-a1b2c3/extracted")]
  ∧ run.2 = Archive.Rejected
              (Archive.ErrorWithMessage "lib.archive.extractZip.errors.extract"
                 (Archive.Raw "bad archive"%string))
  ∧ Archive.Remove (str "/tmp/hubspot-temp-app-a1b2c3") ∉ Archive.calls run.
Proof.
  split; [reflexivity|]. split; [reflexivity|].
  intros Hin. vm_compute in Hin.
  repeat (apply elem_of_cons in Hin as [Hin|Hin]; [discriminate Hin|]).
  by apply elem_of_nil in Hin.
Qed.

Lemma extractZipArchive_success_witness :
  Archive.calls
    (Archive.extractZipArchive (fileSystem := SampleFs.fs true)
       (Some [80; 75]%N) (str "app") (str "/dest") SampleFs.no_options)
  = [Archive.Mkdtemp (str "/tmp/hubspot-temp-app-");
     Archive.EnsureFile (str "/tmp/hubspot-temp-app-a1b2c3/hubspot-temp.zip");
     Archive.WriteFile (str "/tmp/hubspot-temp-app-a1b2c3/hubspot-temp.zip")
       [80; 75]%N 511;
     Archive.Extract (str "/tmp/hubspot-temp-app-a1b2c3/hubspot-temp.zip")
       (str "/tmp/hubspot-temp-app-a1b2c3/extracted");
     Archive.Readdir (str "/tmp/hubspot-temp-app-a1b2c3/extracted");
     Archive.Copy (str "/tmp/hubspot-temp-app-a1b2c3/extracted/project") (str "/dest");
     Archive.Remove (str "/tmp/hubspot-temp-app-a1b2c3")].
Proof.
  rewrite (extractZipArchive_success (fileSystem := SampleFs.fs true)
             [80; 75]%N (str "app") (str "/dest") SampleFs.no_options
             (str "/tmp/hubspot-temp-app-a1b2c3") (str "project") [str "project"]
             eq_refl eq_refl eq_refl eq_refl eq_refl
             (fun _ => conj eq_refl (conj eq_refl eq_refl)) eq_refl).
  reflexivity.
Defined.

(** ** [trackUsage] *)

Section TrackUsageFacts.
Context {TokenInfo Meta : Type} `{!HttpImports TokenInfo Meta}.
Import TrackUsage.

(** C6, as the code has it: [trackUsage] issues exactly one request, a POST.
    On the unauthenticated path its promise resolves whatever becomes of the
    request; on the authenticated path [trackUsage] returns the promise of
    [http.post], so its promise settles as the request does. *)
Theorem trackUsage_one_post (eventName eventClass : jsstring) (meta : Meta)
    (accountId : option Z) (respond : HttpCall Meta -> Settlement) :
  ∃ request,
    (trackUsage eventName eventClass meta accountId respond).1 = [request]
    ∧ verb_of request = Some POST
    ∧ (trackUsage eventName eventClass meta accountId respond).2
      = (if sends_authenticated accountId then respond request else Fulfilled).
Proof.
  unfold trackUsage, sends_authenticated.
  destruct accountId as [id|]; simpl.
  - change (truthy (Some id)) with (negb (id =? 0)%Z).
    destruct (id =? 0)%Z; simpl.
    + eexists. split; [done|]. split; [|done].
      simpl. by rewrite lookup_insert_eq.
    + destruct (getAccountConfig id) as [account|]; simpl.
      * case_bool_decide; eexists; (split; [done|]); (split; [|done]); [done|].
        simpl. by rewrite lookup_insert_eq.
      * eexists. split; [done|]. split; [|done].
        simpl. by rewrite lookup_insert_eq.
  - eexists. split; [done|]. split; [|done].
    simpl. by rewrite lookup_insert_eq.
Qed.

End TrackUsageFacts.

(** Account 1 has a personal access key: the promise of [trackUsage] is
    rejected when the request fails, and fulfilled when it succeeds. *)
Lemma trackUsage_authenticated_follows_request :
  let track :=
    TrackUsage.trackUsage (str "cli-interaction") (str "INTERACTION") () (Some 1%Z) in
  (track (fun _ => TrackUsage.Rejected)).2 = TrackUsage.Rejected
  ∧ (track (fun _ => TrackUsage.Fulfilled)).2 = TrackUsage.Fulfilled.
Proof. split; reflexivity. Qed.

(** ** [api/fileTransport.ts] and [api/localDevAuth.ts] *)

Section ApiFacts.
Context {TokenInfo Meta : Type} `{!HttpImports TokenInfo Meta}.
Import Api.

(** C8: [createSchemaFromHubFile] issues a POST and [updateSchemaFromHubFile]
    a PUT for the account, both with the url
    [/file-transport/v1/hubfiles/object-schemas]; [fetchAccessToken] issues
    through [axios] the configuration [getAxiosConfig] builds for the url
    [localdevauth/v1/auth/refresh], with the method [post], and its query
    parameters are either none or the one parameter [portalId], holding the
    portal id that was passed. *)
Theorem api_calls_fixed_endpoints (accountId : Z)
    (filepath personalAccessKey : jsstring) (env : option jsstring)
    (portalId : option Z) :
  (∃ opts, createSchemaFromHubFile accountId filepath = Http POST accountId opts
           ∧ r_url opts = str "/file-transport/v1/hubfiles/object-schemas")
  ∧ (∃ opts, updateSchemaFromHubFile accountId filepath = Http PUT accountId opts
             ∧ r_url opts = str "/file-transport/v1/hubfiles/object-schemas")
  ∧ (let opts := fetchAccessToken_options personalAccessKey env portalId in
     fetchAccessToken personalAccessKey env portalId
       = Axios (<["method"%string := VStr (str "post")]> (getAxiosConfig opts))
     ∧ verb_of (fetchAccessToken personalAccessKey env portalId) = Some POST
     ∧ r_url opts = str "localdevauth/v1/auth/refresh"
     ∧ r_params opts
       = match portalId with
         | Some p => if (p =? 0)%Z then [] else [("portalId"%string, p)]
         | None => []
         end
     ∧ (r_params opts = []
        ∨ ∃ p, portalId = Some p ∧ r_params opts = [("portalId"%string, p)])).
Proof.
  split; [|split].
  - eexists. split; reflexivity.
  - eexists. split; reflexivity.
  - cbv zeta. split; [reflexivity|]. split.
    { unfold fetchAccessToken, verb_of. by rewrite lookup_insert_eq. }
    split; [reflexivity|].
    assert (Hp : r_params (fetchAccessToken_options personalAccessKey env portalId)
                 = match portalId with
                   | Some p => if (p =? 0)%Z then [] else [("portalId"%string, p)]
                   | None => []
                   end).
    { unfold fetchAccessToken_options. simpl.
      destruct portalId as [p|]; [|done].
      change (truthy (Some p)) with (negb (p =? 0)%Z). by destruct (p =? 0)%Z. }
    split; [exact Hp|]. rewrite Hp.
    destruct portalId as [p|]; [|by left].
    destruct (p =? 0)%Z; [by left|right]. by exists p.
Qed.

End ApiFacts.

(** ** [validate] *)

Section ValidateFacts.
Context {TokenInfo World : Type} `{!ConfigFile TokenInfo World} `{!Imports}.
Import CLIConfiguration.

Implicit Types (l earlier : list (option (CLIAccount TokenInfo))).

Lemma maps_hold_empty : maps_hold (TokenInfo := TokenInfo) ∅ ∅ [].
Proof. repeat split; intros; by rewrite ?lookup_empty in *. Qed.

Lemma forallb_snoc {A} (p : A -> bool) (l : list A) x :
  forallb p (l ++ [x]) = forallb p l && p x.
Proof. rewrite forallb_app. simpl. by rewrite andb_true_r. Qed.

Lemma maps_hold_id ids names earlier (a : CLIAccount TokenInfo) id :
  accountId a = Some id ->
  (∀ nm, name a = Some nm -> truthy nm = false) ->
  maps_hold ids names earlier ->
  maps_hold (<[id := true]> ids) names (earlier ++ [Some a]).
Proof.
  intros Hid Hnm (Hi & Hn & Hb). split; [|split; [|done]].
  - intros id'. rewrite forallb_snoc. simpl. rewrite Hid.
    unfold number_get in *. destruct (decide (id = id')) as [<-|Hne].
    + rewrite lookup_insert_eq. simpl.
      rewrite (bool_decide_eq_false_2 (Some id ≠ Some id)) by (intros ?; done).
      by rewrite andb_false_r.
    + rewrite lookup_insert_ne by done. rewrite Hi.
      rewrite (bool_decide_eq_true_2 (Some id ≠ Some id')) by congruence.
      by rewrite andb_true_r.
  - intros nm Ht. rewrite forallb_snoc, (Hn nm Ht). simpl.
    rewrite (bool_decide_eq_true_2 (name a ≠ Some nm)); [by rewrite andb_true_r|].
    intros Heq. specialize (Hnm nm Heq). congruence.
Qed.

Lemma maps_hold_id_name ids names earlier (a : CLIAccount TokenInfo) id nm :
  accountId a = Some id -> name a = Some nm ->
  maps_hold ids names earlier ->
  maps_hold (<[id := true]> ids) (<[nm := true]> names) (earlier ++ [Some a]).
Proof.
  intros Hid Hnm (Hi & Hn & Hb). split; [|split].
  - intros id'. rewrite forallb_snoc. simpl. rewrite Hid.
    unfold number_get in *. destruct (decide (id = id')) as [<-|Hne].
    + rewrite lookup_insert_eq. simpl.
      rewrite (bool_decide_eq_false_2 (Some id ≠ Some id)) by (intros ?; done).
      by rewrite andb_false_r.
    + rewrite lookup_insert_ne by done. rewrite Hi.
      rewrite (bool_decide_eq_true_2 (Some id ≠ Some id')) by congruence.
      by rewrite andb_true_r.
  - intros nm' Ht. rewrite forallb_snoc. simpl. rewrite Hnm.
    destruct (decide (nm = nm')) as [<-|Hne].
    + rewrite lookup_insert_eq. simpl.
      rewrite (bool_decide_eq_false_2 (Some nm ≠ Some nm)) by (intros ?; done).
      by rewrite andb_false_r.
    + rewrite lookup_insert_ne by done. rewrite (Hn nm' Ht).
      rewrite (bool_decide_eq_true_2 (Some nm ≠ Some nm')) by congruence.
      by rewrite andb_true_r.
  - intros nm' b. destruct (decide (nm = nm')) as [<-|Hne].
    + rewrite lookup_insert_eq. congruence.
    + rewrite lookup_insert_ne by done. apply Hb.
Qed.

(** The read [accountNamesMap[nm]] of a name that [Object.prototype] does not
    define tells whether an earlier entry bears the name. *)
Lemma object_get_own names earlier ids nm :
  maps_hold ids names earlier -> truthy nm = true ->
  nm ∉ OBJECT_PROTOTYPE_KEYS ->
  object_get names nm
  = negb (forallb (fun e => bool_decide ((e ≫= name) ≠ Some nm)) earlier).
Proof.
  intros (_ & Hn & _) Ht Hproto. rewrite <- (Hn nm Ht). unfold object_get.
  destruct (names !! nm); [done|]. simpl. by apply bool_decide_eq_false.
Qed.

(** Where no entry bears a name that [Object.prototype] defines, the loop of
    [validate] accepts the entries the specification accepts. *)
Lemma validate_every_entries_ok l : ∀ ids names earlier,
  maps_hold ids names earlier ->
  (∀ a nm, Some a ∈ l -> name a = Some nm -> nm ∉ OBJECT_PROTOTYPE_KEYS) ->
  validate_every ids names l = entries_ok earlier l.
Proof.
  induction l as [|entry l IH]; intros ids names earlier Hm Hproto; [done|].
  destruct entry as [a|]; [|done]. simpl.
  assert (Hrest : ∀ a' nm, Some a' ∈ l -> name a' = Some nm ->
                           nm ∉ OBJECT_PROTOTYPE_KEYS).
  { intros a' nm Hin. apply Hproto. by right. }
  destruct (accountId a) as [id|] eqn:Hid; [|done].
  change (truthy (Some id)) with (truthy id).
  destruct (truthy id) eqn:Hti; [|done]. cbn [negb andb].
  destruct Hm as (Hi & Hn & Hb). rewrite Hi.
  destruct (forallb (fun e => bool_decide ((e ≫= accountId) ≠ Some id)) earlier)
    eqn:Hids; [|done].
  cbn [negb andb].
  destruct (name a) as [nm|] eqn:Hnm.
  - change (truthy (Some nm)) with (truthy nm).
    destruct (truthy nm) eqn:Htn.
    + rewrite (object_get_own names earlier ids nm); [|done|done|].
      2:{ apply (Hproto a nm); [by left|done]. }
      cbn [default from_option Datatypes.id].
      destruct (forallb (fun e => bool_decide ((e ≫= name) ≠ Some nm)) earlier)
        eqn:Hnames; [|done].
      cbn [negb andb].
      destruct (test_whitespace nm); [done|]. cbn [negb andb].
      apply IH; [|done]. by apply maps_hold_id_name.
    + apply IH; [|done]. apply maps_hold_id; [done| |done].
      intros nm' Heq. rewrite Hnm in Heq. by injection Heq as <-.
  - change (truthy (@None jsstring)) with false. cbv iota.
    apply IH; [|done]. apply maps_hold_id; [done| |done].
    intros nm' Heq. by rewrite Hnm in Heq.
Qed.

(** X26: [validate] returns true exactly as specified (a non-null
    configuration with an array of accounts whose entries are non-empty, have
    truthy, pairwise distinct ids and, where named, pairwise distinct names
    without white space) on every configuration in which no account bears a
    name that [Object.prototype] defines. *)
Lemma validate_as_specified (config : option (ParsedConfig TokenInfo)) :
  (∀ c l a nm, config = Some c -> parsed_accounts c = Some l -> Some a ∈ l ->
               name a = Some nm -> nm ∉ OBJECT_PROTOTYPE_KEYS) ->
  validate config = valid_as_specified config.
Proof.
  intros Hproto. destruct config as [c|]; [|done]. simpl.
  destruct (parsed_accounts c) as [l|] eqn:Hl; [|done].
  apply validate_every_entries_ok; [apply maps_hold_empty|].
  intros a nm. by apply (Hproto c l).
Qed.

End ValidateFacts.

(** C5 (the code departs from the claim): a configuration whose one account is
    non-empty, has the id 1 and the name [constructor], which holds no white
    space, meets every condition of the claim, and [validate] returns false:
    the read [accountNamesMap["constructor"]] yields the function every object
    inherits, and [validate] reports a duplicate name. *)
Theorem validate_rejects_inherited_property_name :
  let config :=
    Some (mkParsed (Some [Some (Sample.account 1 (Some (str "constructor")))])) in
  valid_as_specified config = true
  ∧ CLIConfiguration.validate config = false.
Proof. split; reflexivity. Qed.

(** * Further properties of the code *)

(** ** [validate], and what a validated configuration guarantees *)

Section ValidateMore.
Context {TokenInfo World : Type} `{!ConfigFile TokenInfo World} `{!Imports}.
Import CLIConfiguration.

Implicit Types (l earlier : list (option (CLIAccount TokenInfo))).
Implicit Types (c : CLIConfig TokenInfo).

(** Whatever the names are, an accepted list meets the specification. *)
Lemma validate_every_sound l : ∀ ids names earlier,
  maps_hold ids names earlier ->
  validate_every ids names l = true -> entries_ok earlier l = true.
Proof.
  induction l as [|entry l IH]; intros ids names earlier Hm; [done|].
  destruct entry as [a|]; [|done]. simpl.
  destruct (accountId a) as [id|] eqn:Hid; [|done].
  change (truthy (Some id)) with (truthy id).
  destruct (truthy id) eqn:Hti; [|done]. cbn [negb andb].
  pose proof Hm as (Hi & Hn & Hb). rewrite Hi.
  destruct (forallb (fun e => bool_decide ((e ≫= accountId) ≠ Some id)) earlier)
    eqn:Hids; [|done].
  cbn [negb andb].
  destruct (name a) as [nm|] eqn:Hnm.
  - change (truthy (Some nm)) with (truthy nm).
    destruct (truthy nm) eqn:Htn.
    + unfold object_get. specialize (Hn nm Htn).
      destruct (names !! nm) as [b|] eqn:Hlook.
      { rewrite (Hb nm b Hlook). done. }
      destruct (bool_decide (nm ∈ OBJECT_PROTOTYPE_KEYS)); [done|].
      simpl in Hn. symmetry in Hn. apply negb_false_iff in Hn. rewrite Hn.
      cbn [default from_option Datatypes.id andb].
      destruct (test_whitespace nm); [done|]. cbn [negb andb].
      apply IH. by apply maps_hold_id_name.
    + apply IH. apply maps_hold_id; [done| |done].
      intros nm' Heq. rewrite Hnm in Heq. by injection Heq as <-.
  - change (truthy (@None jsstring)) with false. cbv iota.
    apply IH. apply maps_hold_id; [done| |done].
    intros nm' Heq. by rewrite Hnm in Heq.
Qed.

(** X1: [validate] is sound: a configuration it accepts is non-null, has an
    array of accounts, and every entry is non-empty, has a truthy id that no
    earlier entry has, and a name, if any, that no earlier entry has and that
    holds no white space. *)
Theorem validate_sound (config : option (ParsedConfig TokenInfo)) :
  validate config = true -> valid_as_specified config = true.
Proof.
  destruct config as [c|]; [|done]. simpl.
  destruct (parsed_accounts c) as [l|]; [|done].
  apply validate_every_sound, maps_hold_empty.
Qed.

(** The entry at a position is acceptable after the entries before it. *)
Lemma entries_ok_lookup l : ∀ earlier j e,
  entries_ok earlier l = true -> l !! j = Some e ->
  entry_ok (earlier ++ take j l) e = true.
Proof.
  induction l as [|x l IH]; intros earlier j e Hok Hj; [done|].
  simpl in Hok. apply andb_prop in Hok as [Hx Hrest].
  destruct j as [|j]; simpl in *.
  - injection Hj as <-. by rewrite app_nil_r.
  - rewrite (cons_middle x), app_assoc. by apply IH.
Qed.

(** In an acceptable list of accounts, an account differs in its id from every
    account before it, and in its name when it has one. *)
Lemma entries_ok_earlier (accs : list (CLIAccount TokenInfo)) i j a b :
  entries_ok [] (Some <$> accs) = true ->
  i < j -> accs !! i = Some a -> accs !! j = Some b ->
  truthy (accountId b) = true
  ∧ accountId a ≠ accountId b
  ∧ (truthy (name b) = true ->
     name a ≠ name b ∧ test_whitespace (default [] (name b)) = false).
Proof.
  intros Hok Hij Hi Hj.
  assert (Hb : entry_ok (take j (Some <$> accs)) (Some b) = true).
  { apply (entries_ok_lookup _ [] j); [done|]. by rewrite list_lookup_fmap, Hj. }
  assert (Ha : Some a ∈ take j (Some <$> accs)).
  { apply list_elem_of_lookup. exists i.
    rewrite lookup_take_lt by done. by rewrite list_lookup_fmap, Hi. }
  unfold entry_ok in Hb.
  apply andb_prop in Hb as [Hb Hnames]. apply andb_prop in Hb as [Hid Hids].
  split; [done|]. split.
  - rewrite forallb_forall in Hids.
    specialize (Hids (Some a)). rewrite <- list_elem_of_In in Hids.
    by apply bool_decide_eq_true in Hids.
  - intros Htn. rewrite Htn in Hnames.
    apply andb_prop in Hnames as [Hnames Hws]. split.
    + rewrite forallb_forall in Hnames.
      specialize (Hnames (Some a)). rewrite <- list_elem_of_In in Hnames.
      by apply bool_decide_eq_true in Hnames.
    + by apply negb_true_iff.
Qed.

Lemma validate_entries_ok c :
  validate (Some (parsed_of c)) = true ->
  entries_ok [] (Some <$> accounts c) = true.
Proof. apply validate_every_sound, maps_hold_empty. Qed.

(** X2: in a configuration [validate] accepts, the account ids are truthy and
    pairwise distinct, and no two accounts share a non-empty name. *)
Theorem validate_distinct_ids_and_names c :
  validate (Some (parsed_of c)) = true ->
  NoDup (accountId <$> accounts c)
  ∧ (∀ a, a ∈ accounts c -> truthy (accountId a) = true)
  ∧ (∀ i j a b, accounts c !! i = Some a -> accounts c !! j = Some b ->
                truthy (name a) = true -> name a = name b -> i = j).
Proof.
  intros Hv. apply validate_entries_ok in Hv.
  pose proof (entries_ok_earlier (accounts c)) as Hpair.
  split; [|split].
  - apply NoDup_alt. intros i j x Hi Hj.
    rewrite list_lookup_fmap in Hi, Hj.
    destruct (accounts c !! i) as [a|] eqn:Ha; [|done].
    destruct (accounts c !! j) as [b|] eqn:Hb; [|done].
    simpl in Hi, Hj.
    destruct (lt_eq_lt_dec i j) as [[Hlt|Heq]|Hgt]; [|done|].
    + destruct (Hpair i j a b Hv Hlt Ha Hb) as (_ & Hne & _). congruence.
    + destruct (Hpair j i b a Hv Hgt Hb Ha) as (_ & Hne & _). congruence.
  - intros a [j Hj]%list_elem_of_lookup.
    pose proof (entries_ok_lookup _ [] j (Some a) Hv) as Hok.
    rewrite list_lookup_fmap, Hj in Hok. specialize (Hok eq_refl).
    unfold entry_ok in Hok.
    apply andb_prop in Hok as [Hok _]. by apply andb_prop in Hok as [Hok _].
  - intros i j a b Ha Hb Htn Heq.
    destruct (lt_eq_lt_dec i j) as [[Hlt|Heq']|Hgt]; [|done|].
    + destruct (Hpair i j a b Hv Hlt Ha Hb) as (_ & _ & Hn).
      rewrite <- Heq in Hn. by destruct (Hn Htn).
    + destruct (Hpair j i b a Hv Hgt Hb Ha) as (_ & _ & Hn).
      destruct (Hn Htn). congruence.
Qed.

(** X3: the index [getConfigAccountIndex] returns for a truthy id is the
    position of the account [getAccount] returns for it, and there is no index
    exactly when there is no account. *)
Theorem getAccount_at_getConfigAccountIndex c (n : Z) :
  n ≠ 0%Z ->
  getAccount (Some c) (Some (Id n))
  = getConfigAccountIndex (Some c) n ≫= (fun i => accounts c !! i).
Proof.
  intros Hn. rewrite getAccount_Id by done.
  unfold find_by_id, getConfigAccountIndex.
  induction (accounts c) as [|x l IH]; simpl; [done|].
  destruct (bool_decide (accountId x = Some n)); [done|].
  rewrite IH. by destruct (findIndex _ l).
Qed.

End ValidateMore.

Lemma validate_sound_witness :
  valid_as_specified
    (Some (parsed_of SampleMore.two_accounts)) = true.
Proof. exact (validate_sound (Some (parsed_of SampleMore.two_accounts)) eq_refl). Defined.

Lemma validate_distinct_ids_and_names_witness :
  NoDup (accountId <$> accounts SampleMore.two_accounts).
Proof.
  exact (proj1 (validate_distinct_ids_and_names SampleMore.two_accounts eq_refl)).
Defined.

Lemma getAccount_at_getConfigAccountIndex_witness :
  CLIConfiguration.getAccount (Some SampleMore.two_accounts) (Some (Id 2))
  = Some (Sample.account 2 (Some (str "prod"))).
Proof.
  rewrite (getAccount_at_getConfigAccountIndex SampleMore.two_accounts 2%Z
             ltac:(discriminate)).
  reflexivity.
Defined.

(** ** The mutators of the class *)

Section Mutators.
Context {TokenInfo World : Type} `{!ConfigFile TokenInfo World} `{!Imports}
  `{!ConfigConstants}.
Import CLIConfiguration.

Implicit Types (this : t TokenInfo) (w : World) (c : CLIConfig TokenInfo).
Implicit Types (a : CLIAccount TokenInfo).

Lemma bind_Return {A B} (m : M TokenInfo World A) (k : A -> M TokenInfo World B)
    this w r this' w' :
  m this w = Return r this' w' -> (m ≫= k) this w = k r this' w'.
Proof. intros Hm. unfold mbind, M_bind. by rewrite Hm. Qed.

Lemma requireConfig_None {A} (k : CLIConfig TokenInfo -> M TokenInfo World A) this w :
  config this = None -> (requireConfig ≫= k) this w = Throw noConfigLoaded.
Proof. intros Hc. unfold requireConfig. run. by rewrite Hc. Qed.

Lemma requireConfig_Some {A} (k : CLIConfig TokenInfo -> M TokenInfo World A) this w c :
  config this = Some c -> (requireConfig ≫= k) this w = k c this w.
Proof. intros Hc. unfold requireConfig. run. by rewrite Hc. Qed.

Lemma requireConfig_Return {A} (k : CLIConfig TokenInfo -> M TokenInfo World A) this w r this' w' :
  (requireConfig ≫= k) this w = Return r this' w' ->
  ∃ c, config this = Some c ∧ k c this w = Return r this' w'.
Proof.
  unfold requireConfig. run. destruct (config this) as [c|] eqn:Hc; [|done].
  intros Hk. by exists c.
Qed.

(** An assignment to a key of [this.config] followed by [this.write()]. *)
Lemma set_then_write c' this w :
  (set_config (Some c');; write None) this w =
    Return (Some c') (mk (options this) (useEnvConfig this) (Some c'))
      (if useEnvConfig this then w else writeConfigToFile c' w).
Proof.
  unfold mbind, M_bind, set_config. rewrite write_spec. simpl.
  by destruct (useEnvConfig this).
Qed.

(** X4: while no configuration is loaded, [updateDefaultAccount],
    [renameAccount], [removeAccountFromConfig], [updateDefaultMode],
    [updateHttpTimeout] and [updateAllowUsageTracking] raise the
    [noConfigLoaded] error whatever their arguments are, and [updateAccount]
    with a truthy id returns [null] without raising; the instance and the file
    stay as they are. *)
Theorem mutators_need_config this w :
  config this = None ->
  (∀ d, updateDefaultAccount d this w = Throw noConfigLoaded)
  ∧ (∀ current newName, renameAccount current newName this w = Throw noConfigLoaded)
  ∧ (∀ nameOrId, removeAccountFromConfig nameOrId this w = Throw noConfigLoaded)
  ∧ (∀ m, updateDefaultMode m this w = Throw noConfigLoaded)
  ∧ (∀ timeout, updateHttpTimeout timeout this w = Throw noConfigLoaded)
  ∧ (∀ b, updateAllowUsageTracking b this w = Throw noConfigLoaded)
  ∧ (∀ u writeUpdate, truthy (u_accountId u) = true ->
       updateAccount u writeUpdate this w = Return None this w).
Proof.
  intros Hc. repeat split; intros; try by apply requireConfig_None.
  unfold updateAccount.
  match goal with Ht : truthy _ = true |- _ => rewrite Ht end.
  cbn [negb]. run. by rewrite Hc.
Qed.

(** X5: on a loaded configuration, [updateDefaultAccount] with a truthy name or
    id stores it as the default account, writes the configuration unless it
    comes from the environment, and returns it; afterwards [getDefaultAccount]
    returns the argument and [getAccount()] without an argument returns what
    [getAccount] returned for the argument. A falsy argument ([""] or [0])
    raises the [updateDefaultAccount] error. *)
Theorem updateDefaultAccount_sets_default this w c (d : NameOrId) :
  config this = Some c ->
  let c' := with_defaultAccount c d in
  updateDefaultAccount d this w =
    (if truthy d
     then Return (Some c') (mk (options this) (useEnvConfig this) (Some c'))
            (if useEnvConfig this then w else writeConfigToFile c' w)
     else Throw (ErrorWithMessage "config.cliConfiguration.updateDefaultAccount"))
  ∧ (truthy d = true ->
     getDefaultAccount (Some c') = Some d
     ∧ getAccount (Some c') None = getAccount (Some c) (Some d)).
Proof.
  intros Hc c'. split.
  - unfold updateDefaultAccount. rewrite (requireConfig_Some _ _ _ c Hc).
    destruct (truthy d); [|done]. cbn [negb]. apply set_then_write.
  - intros Hd.
    assert (Hdef : getDefaultAccount (Some c') = Some d).
    { unfold getDefaultAccount. simpl. change (truthy (Some d)) with (truthy d).
      by rewrite Hd. }
    split; [done|].
    rewrite (getAccount_falsy (Some c') None) by done. rewrite Hdef.
    unfold getAccount. change (truthy (Some d)) with (truthy d). by rewrite Hd.
Qed.

(** X6: when [updateDefaultMode] returns, the mode it was given is one of
    [Object.values(DEFAULT_MODES)] and is the [defaultMode] of the
    configuration it returns and leaves in the instance; every other argument
    raises. *)
Theorem updateDefaultMode_accepts_known_modes m this w r this' w' :
  updateDefaultMode m this w = Return r this' w' ->
  m ∈ ALL_MODES
  ∧ ∃ c, config this = Some c ∧ r = Some (with_defaultMode c m)
         ∧ config this' = Some (with_defaultMode c m).
Proof.
  intros Hrun. apply requireConfig_Return in Hrun as (c & Hc & Hrun).
  destruct (negb (truthy m) || _) eqn:Hguard; [done|].
  apply orb_false_elim in Hguard as [_ Hfind].
  rewrite set_then_write in Hrun. injection Hrun as <- <- <-.
  split; [|by exists c].
  destruct (find _ ALL_MODES) as [m'|] eqn:Hf; [|done].
  apply find_some in Hf as [Hin Heq]. apply bool_decide_eq_true in Heq as ->.
  by apply list_elem_of_In.
Qed.

(** X7: when [updateHttpTimeout] returns, [parseInt] of its argument is not
    [NaN] and not below [MIN_HTTP_TIMEOUT] (an integer is at least the
    minimum), and it is the [httpTimeout] of the configuration returned and
    left in the instance: no timeout below the minimum, and no text without a
    leading integer, is ever stored. *)
Theorem updateHttpTimeout_bounds timeout this w r this' w' :
  updateHttpTimeout timeout this w = Return r this' w' ->
  ∃ c n, config this = Some c ∧ parseInt timeout = n
         ∧ isNaN n = false ∧ Number_ltb n MIN_HTTP_TIMEOUT = false
         ∧ (∀ k, n = Finite k -> (MIN_HTTP_TIMEOUT <= k)%Z)
         ∧ r = Some (with_httpTimeout c n)
         ∧ config this' = Some (with_httpTimeout c n).
Proof.
  intros Hrun. apply requireConfig_Return in Hrun as (c & Hc & Hrun).
  cbv zeta in Hrun.
  destruct (isNaN (parseInt timeout)) eqn:Hnan; [done|].
  destruct (Number_ltb (parseInt timeout) MIN_HTTP_TIMEOUT) eqn:Hlt; [done|].
  cbn [orb] in Hrun.
  rewrite set_then_write in Hrun. injection Hrun as <- <- <-.
  exists c, (parseInt timeout). repeat split; try done.
  intros k Hk. rewrite Hk in Hlt. by apply Z.ltb_ge in Hlt.
Qed.

(** X8: a run of decimal digits is accepted by [updateHttpTimeout] when the
    number [parseInt] reads from it is not below [MIN_HTTP_TIMEOUT], and that
    number is stored; it is the value the digits spell when that is at most
    2^53 (beyond, the nearest double or [Infinity]). The configuration is
    written unless it comes from the environment. *)
Theorem updateHttpTimeout_decimal timeout this w c :
  config this = Some c -> test_digits timeout = true ->
  Number_ltb (parseInt10 timeout) MIN_HTTP_TIMEOUT = false ->
  let c' := with_httpTimeout c (parseInt10 timeout) in
  updateHttpTimeout timeout this w
  = Return (Some c') (mk (options this) (useEnvConfig this) (Some c'))
      (if useEnvConfig this then w else writeConfigToFile c' w)
  ∧ ((decimal timeout <= 9007199254740992)%Z ->
     parseInt10 timeout = Finite (decimal timeout)).
Proof.
  intros Hc Hd Hmin c'. split.
  - unfold updateHttpTimeout.
    rewrite (requireConfig_Some _ _ _ c Hc), (parseInt_digits _ Hd).
    cbv zeta. rewrite Hmin.
    destruct (parseInt10_digits_cases _ Hd) as [(n & Hn & _)|Hn];
      rewrite Hn; cbn [isNaN orb]; subst c'; rewrite Hn; apply set_then_write.
  - intros Hle. rewrite (parseInt10_digits _ Hd). apply toNumber_exact.
    apply andb_prop in Hd as [_ Hd]. pose proof (decimal_nonneg _ Hd). lia.
Qed.

Lemma getAccountId_found c (nameOrId : NameOrId) id :
  getAccountId (Some c) (Some nameOrId) = Some id ->
  ∃ a, find_by_id id (accounts c) = Some a.
Proof.
  unfold getAccountId. destruct (getAccount _ _) as [a|] eqn:Hget; [|done].
  intros Hid.
  assert (Hin : a ∈ accounts c).
  { unfold getAccount in Hget.
    destruct (negb _); [done|]. destruct (match _ with Some (Name _) => _ | _ => _ end) as [nm i].
    destruct (truthy nm).
    - apply find_some in Hget as [Hin _]. by apply list_elem_of_In.
    - destruct (truthy i); [|done].
      apply find_some in Hget as [Hin _]. by apply list_elem_of_In. }
  unfold find_by_id.
  destruct (find _ (accounts c)) as [b|] eqn:Hf; [by exists b|].
  apply list_elem_of_In in Hin.
  pose proof (find_none _ _ Hf a Hin) as Hno.
  apply bool_decide_eq_false in Hno. done.
Qed.

Lemma find_delete_other {A} (p q : A -> bool) (l : list A) i :
  findIndex p l = Some i -> (∀ x, p x = true -> q x = false) ->
  find q (base.delete i l) = find q l.
Proof.
  revert i. induction l as [|x l IH]; intros i; simpl; [done|].
  destruct (p x) eqn:Hp.
  - intros [= <-] Hpq. simpl. by rewrite (Hpq x Hp).
  - destruct (findIndex p l) as [j|] eqn:Hj; [|done].
    intros [= <-] Hpq. simpl. destruct (q x); [done|]. by apply IH.
Qed.

Lemma find_delete_NoDup {A B} `{EqDecision B} (f : A -> B) (v : B) (l : list A) i :
  findIndex (fun x => bool_decide (f x = v)) l = Some i ->
  NoDup (f <$> l) ->
  find (fun x => bool_decide (f x = v)) (base.delete i l) = None.
Proof.
  revert i. induction l as [|x l IH]; intros i; simpl; [done|].
  case_bool_decide as Hx.
  - intros [= <-] Hnd. simpl. apply NoDup_cons in Hnd as [Hnotin _].
    destruct (find _ l) as [y|] eqn:Hf; [|done].
    apply find_some in Hf as [Hin Hy]. apply bool_decide_eq_true in Hy.
    exfalso. apply Hnotin. rewrite Hx, <- Hy.
    apply list_elem_of_fmap. exists y. split; [done|]. by apply list_elem_of_In.
  - destruct (findIndex _ l) as [j|] eqn:Hj; [|done].
    intros [= <-] Hnd. simpl. rewrite bool_decide_eq_false_2 by done.
    apply IH; [done|]. by apply NoDup_cons in Hnd as [_ Hnd].
Qed.

(** X9: [removeAccountFromConfig] for a name or id that resolves to a truthy
    account id removes the first account with that id and no other, writes
    the configuration unless it comes from the environment, and returns whether
    the name of the removed account is the default account. Every other id is
    looked up as before; when the ids are pairwise distinct, the id is no
    longer found. *)
Theorem removeAccountFromConfig_removes this w c (nameOrId : NameOrId) id :
  config this = Some c ->
  getAccountId (Some c) (Some nameOrId) = Some id -> id ≠ 0%Z ->
  ∃ a i,
    find_by_id id (accounts c) = Some a
    ∧ getConfigAccountIndex (Some c) id = Some i
    ∧ let c' := with_accounts c (base.delete i (accounts c)) in
      removeAccountFromConfig nameOrId this w
      = Return (name_is_default (name a) (getDefaultAccount (Some c)))
          (mk (options this) (useEnvConfig this) (Some c'))
          (if useEnvConfig this then w else writeConfigToFile c' w)
      ∧ S (length (accounts c')) = length (accounts c)
      ∧ (∀ id', id' ≠ id ->
           find_by_id id' (accounts c') = find_by_id id' (accounts c))
      ∧ (NoDup (accountId <$> accounts c) -> find_by_id id (accounts c') = None).
Proof.
  intros Hc Hid Hne.
  destruct (getAccountId_found _ _ _ Hid) as [a Ha].
  destruct (findIndex_find _ _ _ Ha) as (i & Hi & Hlt).
  exists a, i. split; [done|]. split; [done|]. intros c'.
  split; [|split; [|split]].
  - unfold removeAccountFromConfig. rewrite (requireConfig_Some _ _ _ c Hc).
    rewrite Hid.
    assert (Ht : truthy (Some id) = true).
    { change (truthy (Some id)) with (negb (id =? 0)%Z). by destruct (Z.eqb_spec id 0). }
    rewrite Ht. cbn [negb default from_option Datatypes.id].
    rewrite getAccount_Id by done. rewrite Ha.
    unfold getConfigAccountIndex. rewrite Hi. cbn [splice1].
    fold c'. run.
    rewrite write_spec. simpl. by destruct (useEnvConfig this).
  - simpl. rewrite length_delete by (by apply lookup_lt_is_Some_2). lia.
  - intros id' Hne'. simpl. unfold find_by_id.
    apply (find_delete_other _ _ _ _ Hi).
    intros x Hx. apply bool_decide_eq_true in Hx.
    apply bool_decide_eq_false. congruence.
  - intros Hnd. simpl. unfold find_by_id.
    by apply (find_delete_NoDup accountId (Some id)).
Qed.

Lemma find_insert_first {A} (p : A -> bool) (l l2 : list A) i y :
  findIndex p l = Some i -> p y = true ->
  find p (<[i := y]> l ++ l2) = Some y.
Proof.
  revert i. induction l as [|x l IH]; intros i; simpl; [done|].
  destruct (p x) eqn:Hp.
  - intros [= <-] Hy. simpl. by rewrite Hy.
  - destruct (findIndex p l) as [j|] eqn:Hj; [|done].
    intros [= <-] Hy. simpl. rewrite Hp. by apply IH.
Qed.

(** X10: [renameAccount], for a current name [getAccount] resolves to an
    account that is the first with its (truthy) id, and a non-empty new name,
    returns; afterwards the account found under the id bears the new name, and
    the default account is the new name if it was the account's old name and
    is unchanged if not. *)
Theorem renameAccount_renames this w c (current newName : jsstring) a id :
  config this = Some c ->
  getAccount (Some c) (Some (Name current)) = Some a ->
  accountId a = Some id -> id ≠ 0%Z ->
  find_by_id id (accounts c) = Some a ->
  truthy newName = true ->
  ∃ this' w' c' a',
    renameAccount current newName this w = Return () this' w'
    ∧ config this' = Some c'
    ∧ find_by_id id (accounts c') = Some a'
    ∧ name a' = Some newName
    ∧ accountId a' = Some id
    ∧ defaultAccount c'
      = (if name_is_default (name a) (getDefaultAccount (Some c))
         then Some (Name newName) else defaultAccount c).
Proof.
  intros Hc Hget Hid Hne Ha Hnew.
  assert (Hget' : getAccount (Some c) (Some (Id id)) = Some a).
  { by rewrite getAccount_Id. }
  destruct (findIndex_find _ _ _ Ha) as (i & Hi & Hlt).
  set (u := mkFields (Some id) None None None None None None (Some newName)
              None None None None None : FlatAccountFields TokenInfo).
  set (completed := completedAccountConfig u id (Some a)).
  set (c1 := with_accounts c (<[i := completed]> (accounts c) ++ [completed])).
  assert (Hupd : updateAccount u true this w
                 = Return (Some completed)
                     (mk (options this) (useEnvConfig this) (Some c1))
                     (if negb (useEnvConfig this) then writeConfigToFile c1 w else w)).
  { rewrite (updateAccount_present u true this w c id a Hc eq_refl Hne Hget').
    unfold getConfigAccountIndex. rewrite Hi. done. }
  assert (Hname : name completed = Some newName).
  { unfold completed. by rewrite completedAccountConfig_fields. }
  assert (Hcid : accountId completed = Some id).
  { apply completedAccountConfig_accountId. }
  assert (Hfind : find_by_id id (accounts c1) = Some completed).
  { simpl. unfold find_by_id. apply find_insert_first; [done|].
    by apply bool_decide_eq_true. }
  assert (Ht : truthy (Some id) = true).
  { change (truthy (Some id)) with (negb (id =? 0)%Z). by destruct (Z.eqb_spec id 0). }
  unfold renameAccount. rewrite (requireConfig_Some _ _ _ c Hc).
  unfold getAccountId. rewrite Hget, Hid, Ht.
  cbn [default from_option Datatypes.id]. rewrite Hget'.
  fold u.
  assert (Hstep : when_ true (updateAccount u true;; mret ()) this w
                  = Return () (mk (options this) (useEnvConfig this) (Some c1))
                      (if negb (useEnvConfig this) then writeConfigToFile c1 w else w)).
  { unfold when_, mbind, M_bind. by rewrite Hupd. }
  rewrite (bind_Return _ _ _ _ _ _ _ Hstep).
  rewrite (bind_Return get_this _ _ _ _ _ _ eq_refl). cbn [config].
  change (getDefaultAccount (Some c1)) with (getDefaultAccount (Some c)).
  destruct (name_is_default (name a) (getDefaultAccount (Some c))); cbn [when_].
  - assert (Hdef : updateDefaultAccount (Name newName)
                     (mk (options this) (useEnvConfig this) (Some c1))
                     (if negb (useEnvConfig this) then writeConfigToFile c1 w else w)
                   = Return (Some (with_defaultAccount c1 (Name newName)))
                       (mk (options this) (useEnvConfig this)
                          (Some (with_defaultAccount c1 (Name newName))))
                       (if useEnvConfig this
                        then (if negb (useEnvConfig this)
                              then writeConfigToFile c1 w else w)
                        else writeConfigToFile (with_defaultAccount c1 (Name newName))
                               (if negb (useEnvConfig this)
                                then writeConfigToFile c1 w else w))).
    { unfold updateDefaultAccount.
      rewrite (requireConfig_Some _ _ _ c1) by done.
      change (truthy (Name newName)) with (truthy newName). rewrite Hnew. cbn [negb].
      by rewrite set_then_write. }
    rewrite (bind_Return _ _ _ _ _ _ _ Hdef).
    eexists _, _, _, completed. split; [reflexivity|]. simpl. done.
  - eexists _, _, c1, completed. split; [reflexivity|]. done.
Qed.

(** X11: [getEnv] never returns an empty string, provided [ENVIRONMENTS.PROD]
    is not empty: an empty [env] of the account or of the configuration is
    passed over. *)
Theorem getEnv_truthy (config : option (CLIConfig TokenInfo))
    (nameOrId : option NameOrId) :
  truthy PROD = true -> truthy (getEnv config nameOrId) = true.
Proof.
  intros Hprod. unfold getEnv.
  destruct (truthy (getAccount config nameOrId) && _ && _) eqn:Hacc.
  - apply andb_prop in Hacc as [_ Henv].
    by destruct (getAccount config nameOrId ≫= env).
  - destruct (truthy config && _) eqn:Hcfg; [|done].
    apply andb_prop in Hcfg as [_ Henv].
    by destruct (config ≫= cfg_env).
Qed.

(** X12: a configuration [load] took from the environment is not written to
    the file: with [options.useEnv] set and an environment configuration that
    has an account, [load] followed by [write], with or without a
    configuration to write, returns the environment configuration and leaves
    the file as it is. *)
Theorem load_env_then_write_keeps_file this w c updatedConfig :
  truthy (useEnv (options this)) = true ->
  loadConfigFromEnvironment w = Some c -> accounts c ≠ [] ->
  (load;; write updatedConfig) this w
  = Return (Some c) (mk (options this) true (Some c)) w.
Proof.
  intros Hu Henv Hacc.
  assert (Hload : load this w = Return (Some c) (mk (options this) true (Some c)) w).
  { unfold load. run. rewrite Hu, Henv. by destruct (accounts c). }
  rewrite (bind_Return _ _ _ _ _ _ _ Hload). by rewrite write_spec.
Qed.

End Mutators.

Lemma mutators_need_config_witness :
  CLIConfiguration.updateHttpTimeout (str "5000")
    (CLIConfiguration.new (TokenInfo := unit)) Sample.no_file
  = CLIConfiguration.Throw noConfigLoaded.
Proof.
  destruct (mutators_need_config (CLIConfiguration.new (TokenInfo := unit))
              Sample.no_file eq_refl) as (_ & _ & _ & _ & Htimeout & _).
  exact (Htimeout (str "5000")).
Defined.

Lemma updateDefaultAccount_sets_default_witness :
  let c' := CLIConfiguration.with_defaultAccount SampleMore.two_accounts
              (Name (str "prod")) in
  CLIConfiguration.getAccount (Some c') None
  = Some (Sample.account 2 (Some (str "prod"))).
Proof.
  destruct (updateDefaultAccount_sets_default
              (Sample.loaded SampleMore.two_accounts) Sample.no_file
              SampleMore.two_accounts (Name (str "prod")) eq_refl)
    as (_ & Hget).
  cbv zeta. destruct (Hget eq_refl) as (_ & ->). reflexivity.
Defined.

Lemma updateDefaultMode_accepts_known_modes_witness :
  str "draft" ∈ ALL_MODES.
Proof.
  refine (proj1 (updateDefaultMode_accepts_known_modes (str "draft")
                   (Sample.loaded SampleMore.two_accounts) Sample.no_file
                   _ _ _ _)).
  lazy. reflexivity.
Defined.

Lemma updateHttpTimeout_bounds_witness :
  parseInt (str " 5000ms") = Finite 5000 ∧ (MIN_HTTP_TIMEOUT <= 5000)%Z.
Proof.
  assert (Hrun : ∃ r this' w',
             CLIConfiguration.updateHttpTimeout (str " 5000ms")
               (Sample.loaded SampleMore.two_accounts) Sample.no_file
             = CLIConfiguration.Return r this' w').
  { eexists _, _, _. lazy. reflexivity. }
  destruct Hrun as (r & this' & w' & Hrun).
  destruct (updateHttpTimeout_bounds _ _ _ _ _ _ Hrun)
    as (c & n & _ & Hp & _ & _ & Hmin & _).
  split; [reflexivity|]. apply Hmin. by rewrite <- Hp.
Defined.

Lemma updateHttpTimeout_decimal_witness :
  (∃ this' w',
     CLIConfiguration.updateHttpTimeout (str "5000")
       (Sample.loaded SampleMore.two_accounts) Sample.no_file
     = CLIConfiguration.Return
         (Some (CLIConfiguration.with_httpTimeout SampleMore.two_accounts (Finite 5000)))
         this' w')
  ∧ parseInt10 (str "5000") = Finite 5000.
Proof.
  assert (Hmin : Number_ltb (parseInt10 (str "5000")) MIN_HTTP_TIMEOUT = false)
    by reflexivity.
  destruct (updateHttpTimeout_decimal (str "5000")
              (Sample.loaded SampleMore.two_accounts) Sample.no_file
              SampleMore.two_accounts eq_refl eq_refl Hmin) as [Hrun Hexact].
  split; [eexists _, _; exact Hrun|]. apply Hexact. by vm_compute.
Defined.

Lemma removeAccountFromConfig_removes_witness :
  ∃ this' w',
    CLIConfiguration.removeAccountFromConfig (Name (str "dev"))
      (Sample.loaded SampleMore.two_accounts) Sample.no_file
    = CLIConfiguration.Return true this' w'
    ∧ (accounts <$> CLIConfiguration.config this')
      = Some [Sample.account 2 (Some (str "prod"))].
Proof.
  destruct (removeAccountFromConfig_removes
              (Sample.loaded SampleMore.two_accounts) Sample.no_file
              SampleMore.two_accounts (Name (str "dev")) 1%Z
              eq_refl eq_refl ltac:(discriminate))
    as (a & i & Ha & Hi & Hrun & _).
  injection Ha as <-. injection Hi as <-.
  eexists _, _. split; [exact Hrun|reflexivity].
Defined.

Lemma renameAccount_renames_witness :
  ∃ this' w' c',
    CLIConfiguration.renameAccount (str "dev") (str "main")
      (Sample.loaded SampleMore.two_accounts) Sample.no_file
    = CLIConfiguration.Return () this' w'
    ∧ CLIConfiguration.config this' = Some c'
    ∧ defaultAccount c' = Some (Name (str "main")).
Proof.
  destruct (renameAccount_renames
              (Sample.loaded SampleMore.two_accounts) Sample.no_file
              SampleMore.two_accounts (str "dev") (str "main")
              (Sample.account 1 (Some (str "dev"))) 1%Z
              eq_refl eq_refl eq_refl ltac:(discriminate) eq_refl eq_refl)
    as (this' & w' & c' & a' & Hrun & Hc & _ & _ & _ & Hdef).
  exists this', w', c'. split; [exact Hrun|]. split; [exact Hc|exact Hdef].
Defined.

Lemma getEnv_truthy_witness :
  truthy (CLIConfiguration.getEnv (Some SampleMore.two_accounts) None) = true.
Proof. exact (getEnv_truthy (Some SampleMore.two_accounts) None eq_refl). Defined.

Lemma load_env_then_write_keeps_file_witness :
  let this := CLIConfiguration.mk (TokenInfo := unit) (mkOptions (Some true)) false None in
  let w : Sample.World := (Some SampleMore.two_accounts, None) in
  (CLIConfiguration.load;; CLIConfiguration.write (Some (Sample.config_of []))) this w
  = CLIConfiguration.Return (Some SampleMore.two_accounts)
      (CLIConfiguration.mk (mkOptions (Some true)) true (Some SampleMore.two_accounts)) w.
Proof.
  exact (load_env_then_write_keeps_file
           (CLIConfiguration.mk (TokenInfo := unit) (mkOptions (Some true)) false None)
           ((Some SampleMore.two_accounts, None) : Sample.World)
           SampleMore.two_accounts (Some (Sample.config_of []))
           eq_refl eq_refl ltac:(discriminate)).
Defined.

(** ** More on [getRequestOptions] *)

Section GetRequestOptionsMore.
Context {TokenInfo World : Type} `{!ConfigFile TokenInfo World} `{!Imports}
  `{!ConfigConstants}.
Import CLIConfiguration.

Implicit Types (this : t TokenInfo) (w : World) (c : CLIConfig TokenInfo).
Implicit Types (requestOptions : gmap string JsVal).

(** [getRequestOptions] on an instance that holds a configuration. *)
Lemma getRequestOptions_loaded options requestOptions this w c :
  config this = Some c ->
  getRequestOptions options requestOptions this w =
    Return
      (requestOptions ∪
       <["baseUrl"%string :=
           VStr (getHubSpotApiOrigin (o_env options)
                   (if truthy (o_localHostOverride options) then Some false
                    else httpUseLocalhost c))]>
       (<["headers"%string := VHeaders DEFAULT_USER_AGENT_HEADERS]>
       (<["json"%string := VBool true]>
       (<["simple"%string := VBool true]>
       (<["timeout"%string :=
           VNum (if truthy (httpTimeout c) then default NaN (httpTimeout c)
                 else Finite 15000)]> ∅)))))
      this w.
Proof.
  intros Hc. unfold getRequestOptions, getAndLoadConfigIfNeeded. run.
  rewrite Hc. change (truthy (Some c)) with true. cbn [negb]. run. rewrite Hc.
  by destruct this.
Qed.

(** What [getAndLoadConfigIfNeeded] leaves in the instance. *)
Lemma getAndLoadConfigIfNeeded_Return this w r this' w' :
  getAndLoadConfigIfNeeded None this w = Return r this' w' -> r = config this'.
Proof.
  unfold getAndLoadConfigIfNeeded. run.
  destruct (if negb (truthy (config this)) then _ else _) as [? this1 w1|]; [|done].
  by intros [= <- <- <-].
Qed.

(** X13: the object [getRequestOptions] returns holds every key of its
    [requestOptions] argument with the value given there, holds the five keys
    [baseUrl], [headers], [json], [simple] and [timeout] besides and no other
    key, and [json] and [simple] are [true] unless [requestOptions] sets
    them. *)
Theorem getRequestOptions_keeps_requestOptions options requestOptions this w
    result this' w' :
  getRequestOptions options requestOptions this w = Return result this' w' ->
  requestOptions ⊆ result
  ∧ dom result
    = dom requestOptions
      ∪ {["baseUrl"; "headers"; "json"; "simple"; "timeout"]}%string
  ∧ result !! "json"%string
    = Some (default (VBool true) (requestOptions !! "json"%string))
  ∧ result !! "simple"%string
    = Some (default (VBool true) (requestOptions !! "simple"%string)).
Proof.
  unfold getRequestOptions. unfold mbind at 1, M_bind.
  destruct (getAndLoadConfigIfNeeded None this w) as [[c|] this1 w1|]; [|done|done].
  unfold mret, M_ret. intros [= <- <- <-].
  split; [apply map_union_subseteq_l|]. split.
  - rewrite dom_union_L, !dom_insert_L, dom_empty_L. set_solver.
  - rewrite !lookup_union.
    destruct (requestOptions !! "json"%string),
             (requestOptions !! "simple"%string); by simplify_map_eq.
Qed.

(** X14: on an instance without a configuration, and without a configuration
    file to load, [getRequestOptions] raises a [TypeError]: it destructures the
    [null] that [getAndLoadConfigIfNeeded] returns. *)
Theorem getRequestOptions_without_config options requestOptions this w :
  config this = None -> loadConfigFromFile w = None ->
  getRequestOptions options requestOptions this w = Throw TypeError.
Proof.
  intros Hc Hfile. unfold getRequestOptions, getAndLoadConfigIfNeeded, init, load.
  run. rewrite Hc. cbn [truthy truthy_option negb]. run.
  cbn [default from_option Datatypes.id useEnv truthy truthy_option].
  by rewrite Hfile.
Qed.

(** X15: after [updateHttpTimeout] has returned, [getRequestOptions] without
    overrides returns the timeout that was parsed from the argument, or 15000
    when that is zero. *)
Theorem updateHttpTimeout_then_getRequestOptions timeout this w r this' w' options :
  updateHttpTimeout timeout this w = Return r this' w' ->
  ∃ n result,
    parseInt timeout = n ∧ isNaN n = false
    ∧ getRequestOptions options ∅ this' w' = Return result this' w'
    ∧ result !! "timeout"%string
      = Some (VNum (if truthy n then n else Finite 15000)).
Proof.
  intros Hrun. apply requireConfig_Return in Hrun as (c & Hc & Hrun).
  cbv zeta in Hrun.
  destruct (isNaN (parseInt timeout)) eqn:Hnan; [done|].
  destruct (Number_ltb (parseInt timeout) MIN_HTTP_TIMEOUT); [done|].
  cbn [orb] in Hrun.
  rewrite set_then_write in Hrun. injection Hrun as <- <- <-.
  exists (parseInt timeout). eexists. split; [done|]. split; [done|].
  rewrite (getRequestOptions_loaded _ _ _ _ (with_httpTimeout c (parseInt timeout)))
    by done.
  split; [done|].
  rewrite lookup_union, lookup_empty. simplify_map_eq.
  change (truthy (Some (parseInt timeout))) with (truthy (parseInt timeout)).
  by destruct (truthy (parseInt timeout)).
Qed.

End GetRequestOptionsMore.

Lemma getRequestOptions_keeps_requestOptions_witness :
  ∃ result,
    ({["encoding"%string := VUndefined]} : gmap string JsVal) ⊆ result
    ∧ result !! "json"%string = Some (VBool true).
Proof.
  assert (Hrun : ∃ result this' w',
             getRequestOptions (mkGetRequestOptionsOptions None None)
               {["encoding"%string := VUndefined]}
               (Sample.loaded SampleMore.two_accounts) Sample.no_file
             = CLIConfiguration.Return result this' w').
  { eexists _, _, _. reflexivity. }
  destruct Hrun as (result & this' & w' & Hrun).
  destruct (getRequestOptions_keeps_requestOptions _ _ _ _ _ _ _ Hrun)
    as (Hsub & _ & Hjson & _).
  exists result. split; [exact Hsub|]. by rewrite Hjson, lookup_singleton_ne.
Defined.

Lemma getRequestOptions_without_config_witness :
  getRequestOptions (mkGetRequestOptionsOptions None None) ∅
    (CLIConfiguration.new (TokenInfo := unit)) Sample.no_file
  = CLIConfiguration.Throw TypeError.
Proof.
  exact (getRequestOptions_without_config (mkGetRequestOptionsOptions None None) ∅
           (CLIConfiguration.new (TokenInfo := unit)) Sample.no_file
           eq_refl eq_refl).
Defined.

Lemma updateHttpTimeout_then_getRequestOptions_witness :
  ∃ r this' w' result,
    CLIConfiguration.updateHttpTimeout (str "5000")
      (Sample.loaded SampleMore.two_accounts) Sample.no_file
    = CLIConfiguration.Return r this' w'
    ∧ getRequestOptions (mkGetRequestOptionsOptions None None) ∅ this' w'
      = CLIConfiguration.Return result this' w'
    ∧ result !! "timeout"%string = Some (VNum (Finite 5000)).
Proof.
  assert (Hrun : ∃ r this' w',
             CLIConfiguration.updateHttpTimeout (str "5000")
               (Sample.loaded SampleMore.two_accounts) Sample.no_file
             = CLIConfiguration.Return r this' w').
  { eexists _, _, _. lazy. reflexivity. }
  destruct Hrun as (r & this' & w' & Hrun).
  destruct (updateHttpTimeout_then_getRequestOptions _ _ _ _ _ _
              (mkGetRequestOptionsOptions None None) Hrun)
    as (n & result & Hp & _ & Hget & Ht).
  exists r, this', w', result. split; [exact Hrun|]. split; [exact Hget|].
  rewrite Ht. vm_compute in Hp. by rewrite <- Hp.
Defined.

(** ** More on [extractZipArchive] *)

Section ArchiveMore.
Context {BaseError : Type} {fileSystem : Archive.FileSystem BaseError}.
Import Archive.

(** What [extractZip] resolves to. *)
Lemma extractZip_Resolved name zip data :
  (extractZip name zip).2 = Resolved data ->
  mkdtemp (join [tmpdir; str "hubspot-temp-" ++ name ++ str "-"]) = inr (tmpDir data)
  ∧ extractDir data = join [tmpDir data; str "extracted"].
Proof.
  unfold extractZip, await.
  destruct (mkdtemp _) as [?|tmp]; [by destruct (_ || _)|].
  destruct (ensureFile _) as [?|?]; [by destruct (_ || _)|].
  destruct (writeFile _ _) as [?|?]; [by destruct (_ || _)|].
  destruct (extract _ _) as [?|?]; [done|].
  simpl. by intros [= <-].
Qed.

(** [copySourceToDest] resolves to [true] only. *)
Lemma copySourceToDest_Resolved src dest opts b :
  (copySourceToDest src dest opts).2 = Resolved b -> b = true.
Proof.
  unfold copySourceToDest, await.
  destruct (default true _).
  - destruct (readdir _) as [?|files]; [done|].
    destruct (negb _); [by intros [= <-]|].
    destruct (truthy (sourceDir opts)); destruct (copy _ _); simpl; congruence.
  - destruct (truthy (sourceDir opts)); destruct (copy _ _); simpl; congruence.
Qed.

(** X17: [extractZipArchive] asks for the removal of no directory but the one
    [mkdtemp] created for this call, and only in a run that resolves to
    [true]. *)
Theorem extractZipArchive_removes_only_its_tmpDir zip name dest opts p :
  Remove p ∈ calls (extractZipArchive zip name dest opts) ->
  mkdtemp (join [tmpdir; str "hubspot-temp-" ++ name ++ str "-"]) = inr p
  ∧ (extractZipArchive zip name dest opts).2 = Resolved true.
Proof.
  unfold calls, extractZipArchive. destruct zip as [zip|]; [|by intros ?%elem_of_nil].
  unfold mbind, P_bind.
  pose proof (extractZip_no_removal name zip p) as Hzip.
  pose proof (extractZip_Resolved name zip) as Hdata.
  destruct (extractZip name zip) as [t1 [data|e1]]; simpl in *; [|done].
  destruct (Hdata data eq_refl) as [Hmk _].
  pose proof (copySourceToDest_no_removal (extractDir data) dest opts p) as Hcopy.
  pose proof (copySourceToDest_Resolved (extractDir data) dest opts) as Htrue.
  destruct (copySourceToDest _ dest opts) as [t2 [ok|e2]]; simpl in *.
  - rewrite (Htrue ok eq_refl). unfold cleanupTempDir.
    destruct (negb (truthy (tmpDir data))); simpl.
    + rewrite app_nil_r, fmap_app. by intros [?|?]%elem_of_app.
    + rewrite !fmap_app. intros [Hin|[Hin|Hin]%elem_of_app]%elem_of_app; [done|done|].
      simpl in Hin. apply list_elem_of_singleton in Hin. injection Hin as ->. done.
  - rewrite fmap_app. by intros [?|?]%elem_of_app.
Qed.

(** X18: with a zip buffer, the promise of [extractZipArchive] never resolves
    to [false]: a failed step rejects it. *)
Theorem extractZipArchive_resolves_true (zip : Buffer) name dest opts b :
  (extractZipArchive (Some zip) name dest opts).2 = Resolved b -> b = true.
Proof.
  unfold extractZipArchive, mbind, P_bind.
  destruct (extractZip name zip) as [t1 [data|e1]]; [|done].
  pose proof (copySourceToDest_Resolved (extractDir data) dest opts) as Htrue.
  destruct (copySourceToDest _ dest opts) as [t2 [ok|e2]]; [|done].
  unfold cleanupTempDir. destruct (negb _); simpl; intros [= <-]; by apply Htrue.
Qed.

(** X19: when the extracted directory is empty (and [includesRootDir] is not
    false), [extractZipArchive] copies nothing: it asks for the destination
    directory to exist and for the removal of the temporary directory, waits
    for neither, and resolves to [true]. *)
Theorem extractZipArchive_empty_archive (zip : Buffer) (name dest : jsstring)
    (opts : CopySourceToDestOptions) (dir : jsstring) :
  let prefix := join [tmpdir; str "hubspot-temp-" ++ name ++ str "-"] in
  let zipPath := join [dir; str "hubspot-temp.zip"] in
  let extractPath := join [dir; str "extracted"] in
  mkdtemp prefix = inr dir ->
  truthy dir = true ->
  ensureFile zipPath = inr () ->
  writeFile zipPath zip = inr () ->
  extract zipPath extractPath = inr () ->
  default true (includesRootDir opts) = true ->
  readdir extractPath = inr [] ->
  extractZipArchive (Some zip) name dest opts =
    ([mkEvent (Mkdtemp prefix) true; mkEvent (EnsureFile zipPath) true;
      mkEvent (WriteFile zipPath zip 511) true;
      mkEvent (Extract zipPath extractPath) true;
      mkEvent (Readdir extractPath) true;
      mkEvent (EnsureDir dest) false; mkEvent (Remove dir) false],
     Resolved true).
Proof.
  intros prefix zipPath extractPath Hmk Htmp Hens Hwr Hex Hroot Hrd.
  unfold extractZipArchive, extractZip, copySourceToDest, await, mbind, P_bind.
  fold prefix. rewrite Hmk. fold zipPath. rewrite Hens, Hwr.
  fold extractPath. rewrite Hex. cbn [mret P_ret Archive.extractDir Archive.tmpDir].
  rewrite Hroot, Hrd. unfold cleanupTempDir. rewrite Htmp. reflexivity.
Qed.

(** X20: what a rejected promise of [extractZipArchive] carries is never the
    bare error of the failed call: it is a file system error for a write, or
    the error of [extractZip] for the write or for the extraction, built
    around that error. *)
Theorem extractZipArchive_rejections zip name dest opts e :
  (extractZipArchive zip name dest opts).2 = Rejected e ->
  ∃ cause,
    (∃ path, e = FileSystemError (Raw cause) path true)
    ∨ e = ErrorWithMessage "lib.archive.extractZip.errors.write" (Raw cause)
    ∨ e = ErrorWithMessage "lib.archive.extractZip.errors.extract" (Raw cause).
Proof.
  unfold extractZipArchive. destruct zip as [zip|]; [|done].
  unfold mbind, P_bind.
  assert (Hzip : ∀ e1, (extractZip name zip).2 = Rejected e1 ->
            ∃ cause,
              (∃ path, e1 = FileSystemError (Raw cause) path true)
              ∨ e1 = ErrorWithMessage "lib.archive.extractZip.errors.write" (Raw cause)
              ∨ e1 = ErrorWithMessage "lib.archive.extractZip.errors.extract" (Raw cause)).
  { unfold extractZip, await. intros e1.
    destruct (mkdtemp _) as [c0|tmp].
    { destruct (_ || _); simpl; intros [= <-]; exists c0; eauto. }
    destruct (ensureFile _) as [c0|?].
    { destruct (_ || _); simpl; intros [= <-]; exists c0; eauto. }
    destruct (writeFile _ _) as [c0|?].
    { destruct (_ || _); simpl; intros [= <-]; exists c0; eauto. }
    destruct (extract _ _) as [c0|?]; [|done].
    simpl. intros [= <-]. exists c0. eauto. }
  assert (Hcopy : ∀ src e2, (copySourceToDest src dest opts).2 = Rejected e2 ->
            ∃ cause path, e2 = FileSystemError (Raw cause) path true).
  { unfold copySourceToDest, await. intros src e2.
    destruct (default true _).
    - destruct (readdir _) as [c0|files]; [simpl; intros [= <-]; eauto|].
      destruct (negb _); [done|].
      destruct (truthy (sourceDir opts)); destruct (copy _ _) as [c0|?]; simpl;
        intros [= <-]; eauto.
    - destruct (truthy (sourceDir opts)); destruct (copy _ _) as [c0|?]; simpl;
        intros [= <-]; eauto. }
  destruct (extractZip name zip) as [t1 [data|e1]]; simpl in *.
  - specialize (Hcopy (extractDir data)).
    destruct (copySourceToDest _ dest opts) as [t2 [ok|e2]]; simpl in *.
    + unfold cleanupTempDir. by destruct (negb _).
    + intros [= <-]. destruct (Hcopy e2 eq_refl) as (cause & path & ->).
      exists cause. eauto.
  - intros [= <-]. by apply Hzip.
Qed.

End ArchiveMore.

Lemma extractZipArchive_rejected_no_removal_witness :
  Archive.Remove (str "/tmp/hubspot-temp-app-a1b2c3")
  ∉ Archive.calls
      (Archive.extractZipArchive (fileSystem := SampleFs.fs false)
         (Some [80; 75]%N) (str "app") (str "/dest") SampleFs.no_options).
Proof.
  exact (extractZipArchive_rejected_no_removal (fileSystem := SampleFs.fs false)
           (Some [80; 75]%N) (str "app") (str "/dest") SampleFs.no_options
           _ _ eq_refl).
Defined.

Lemma extractZipArchive_removes_only_its_tmpDir_witness :
  Archive.mkdtemp (FileSystem := SampleFs.fs true) (str "/tmp/hubspot-temp-app-")
  = inr (str "/tmp/hubspot-temp-app-a1b2c3").
Proof.
  refine (proj1 (extractZipArchive_removes_only_its_tmpDir
                   (fileSystem := SampleFs.fs true)
                   (Some [80; 75]%N) (str "app") (str "/dest") SampleFs.no_options
                   (str "/tmp/hubspot-temp-app-a1b2c3") _)).
  set (l := Archive.calls _). vm_compute in l. subst l.
  rewrite !elem_of_cons. repeat (first [by left | right]).
Defined.

Lemma extractZipArchive_resolves_true_witness :
  (Archive.extractZipArchive (fileSystem := SampleFs.fs true)
     (Some [80; 75]%N) (str "app") (str "/dest") SampleFs.no_options).2
  = Archive.Resolved true.
Proof.
  assert (Hrun : ∃ b,
    (Archive.extractZipArchive (fileSystem := SampleFs.fs true)
       (Some [80; 75]%N) (str "app") (str "/dest") SampleFs.no_options).2
    = Archive.Resolved b) by (eexists; reflexivity).
  destruct Hrun as [b Hb]. rewrite Hb.
  by rewrite (extractZipArchive_resolves_true (fileSystem := SampleFs.fs true)
                [80; 75]%N (str "app") (str "/dest") SampleFs.no_options b Hb).
Defined.

Lemma extractZipArchive_rejections_witness :
  ∃ cause : string,
    (∃ path, Archive.ErrorWithMessage "lib.archive.extractZip.errors.extract"
               (Archive.Raw "bad archive"%string)
             = Archive.FileSystemError (Archive.Raw cause) path true)
    ∨ Archive.ErrorWithMessage "lib.archive.extractZip.errors.extract"
        (Archive.Raw "bad archive"%string)
      = Archive.ErrorWithMessage "lib.archive.extractZip.errors.write"
          (Archive.Raw cause)
    ∨ Archive.ErrorWithMessage "lib.archive.extractZip.errors.extract"
        (Archive.Raw "bad archive"%string)
      = Archive.ErrorWithMessage "lib.archive.extractZip.errors.extract"
          (Archive.Raw cause).
Proof.
  exact (extractZipArchive_rejections (fileSystem := SampleFs.fs false)
           (Some [80; 75]%N) (str "app") (str "/dest") SampleFs.no_options
           _ eq_refl).
Defined.

Lemma extractZipArchive_empty_archive_witness :
  Archive.calls
    (Archive.extractZipArchive (fileSystem := SampleMore.fs_empty)
       (Some [80; 75]%N) (str "app") (str "/dest") SampleFs.no_options)
  = [Archive.Mkdtemp (str "/tmp/hubspot-temp-app-");
     Archive.EnsureFile (str "/tmp/hubspot-temp-app-a1b2c3/hubspot-temp.zip");
     Archive.WriteFile (str "/tmp/hubspot-temp-app-a1b2c3/hubspot-temp.zip")
       [80; 75]%N 511;
     Archive.Extract (str "/tmp/hubspot-temp-app-a1b2c3/hubspot-temp.zip")
       (str "/tmp/hubspot-temp-app-a1b2c3/extracted");
     Archive.Readdir (str "/tmp/hubspot-temp-app-a1b2c3/extracted");
     Archive.EnsureDir (str "/dest");
     Archive.Remove (str "/tmp/hubspot-temp-app-a1b2c3")].
Proof.
  rewrite (extractZipArchive_empty_archive (fileSystem := SampleMore.fs_empty)
             [80; 75]%N (str "app") (str "/dest") SampleFs.no_options
             (str "/tmp/hubspot-temp-app-a1b2c3")
             eq_refl eq_refl eq_refl eq_refl eq_refl eq_refl eq_refl).
  reflexivity.
Defined.

(** ** [errors/apiErrors.ts] *)

Section ApiErrorsFacts.
Context {Line : Type} `{!Truthy Line} (line_text : Line -> jsstring).
Context `{!ApiErrorImports}.
Import ApiErrors.

Implicit Types (err : StatusCodeError Line) (context : StatusCodeErrorContext).

(** X21: no error is both a missing-scope error and a gating error, and an
    error that is either one is an API status code error with the status
    403. *)
Theorem scope_and_gating_errors err :
  isMissingScopeError err && isGatingError err = false
  ∧ implb (isMissingScopeError err || isGatingError err)
      (isApiStatusCodeError err && bool_decide (statusCode err = Some 403%Z))
    = true.
Proof.
  unfold isMissingScopeError, isGatingError, isApiStatusCodeError.
  destruct (bool_decide (e_name err = _)); simpl; [|done].
  case_bool_decide as Hs; simpl; [|done].
  split; [|by destruct (_ || _)].
  destruct (e_error err) as [detail|]; [|done].
  case_bool_decide as Hm; [|done]. rewrite Hm.
  apply bool_decide_eq_false. vm_compute. by intros [=].
Qed.

(** [parseValidationErrors] returns the message of the body, when it has
    a truthy one, followed by one entry for each validation error, in order;
    for a missing body it returns nothing. *)
Theorem parseValidationErrors_length (body : ResponseBody Line) :
  length (parseValidationErrors line_text (Some body))
  = (if truthy (b_message body) then 1 else 0)
    + length (default [] (b_errors body))
  ∧ parseValidationErrors line_text None = [].
Proof.
  split; [|done]. unfold parseValidationErrors. simpl.
  destruct (b_errors body) as [errors|]; simpl.
  - rewrite length_app, length_fmap. by destruct (truthy (b_message body)).
  - destruct (truthy (b_message body)); simpl; lia.
Qed.

(** X22: [throwApiUploadError] raises the summary of the validation messages
    exactly when the status is 400 and the body of the response has a truthy
    message or at least one validation error; in every other case, a 400 with
    an empty list of errors included, it raises what [throwApiError] raises. *)
Theorem throwApiUploadError_summary err context :
  let has_messages :=
    match response err with
    | Some (Some body) =>
        truthy (b_message body)
        || match b_errors body with Some (_ :: _) => true | _ => false end
    | _ => false
    end in
  throwApiUploadError line_text err context
  = if bool_decide (statusCode err = Some 400%Z) && has_messages
    then NewError
           (ApiErrors.join (str " ")
              (parseValidationErrors line_text (default None (response err))))
           err
    else throwApiError err context.
Proof.
  unfold throwApiUploadError, isApiUploadValidationError, logValidationErrors.
  case_bool_decide as Hs; simpl; [|done].
  destruct (response err) as [[body|]|]; simpl; [|done|done].
  unfold parseValidationErrors. simpl.
  destruct (truthy (b_message body)) eqn:Hm; simpl.
  - by destruct (b_errors body).
  - destruct (b_errors body) as [[|e errors]|]; simpl; done.
Qed.

(** X23: the message [throwApiStatusCodeError] chooses for a status code is the
    generic one exactly when the status is outside 400..599; a status from 500
    to 599 gets the message for 503 or the generic 5xx message, and a status
    from 400 to 499 one of the 4xx messages. *)
Theorem statusMessage_by_range err context action messageDetail
    (missingScope gating : bool) (n : Z) :
  statusCode err = Some n ->
  let key := (statusMessage err context action messageDetail missingScope gating).1 in
  if (400 <=? n)%Z && (n <? 500)%Z
  then key ∈ ["errors.api.codes.400"; "errors.api.codes.401"; "errors.api.codes.403";
              "errors.api.codes.403MissingScope"; "errors.api.codes.403Gating";
              "errors.api.codes.404"; "errors.api.codes.404Request";
              "errors.api.codes.429"; "errors.api.codes.400Generic"]%string
  else if (500 <=? n)%Z && (n <? 600)%Z
  then key ∈ ["errors.api.codes.503"; "errors.api.codes.500Generic"]%string
  else key = "errors.api.codes.generic"%string.
Proof.
  intros Hn key. subst key. unfold statusMessage. rewrite Hn.
  repeat match goal with
  | |- context [(n =? ?k)%Z] => destruct (Z.eqb_spec n k); [subst n; simpl|]
  end.
  1: set_solver.
  1: set_solver.
  1: destruct missingScope, gating; simpl; set_solver.
  1: destruct (truthy (c_request context)); simpl; set_solver.
  1: set_solver.
  1: set_solver.
  change (truthy n) with (negb (n =? 0)%Z).
  destruct (Z.eqb_spec n 0), (Z.leb_spec 500 n), (Z.ltb_spec n 600),
    (Z.leb_spec 400 n), (Z.ltb_spec n 500); simpl; try lia; try done; set_solver.
Qed.

(** An auth error matches the specification made of its own status code,
    category and sub-category exactly when its name is [HubSpotAuthError], and
    so it does the empty specification. *)
Theorem isSpecifiedHubSpotAuthError_own_fields (err : HubSpotAuthError)
    (nm : option jsstring) :
  isSpecifiedHubSpotAuthError err
    (mkAuthError nm (a_statusCode err) (a_category err) (a_subCategory err))
  = bool_decide (a_name err = Some (str "HubSpotAuthError"))
  ∧ isSpecifiedHubSpotAuthError err (mkAuthError nm None None None)
    = bool_decide (a_name err = Some (str "HubSpotAuthError")).
Proof.
  unfold isSpecifiedHubSpotAuthError. simpl.
  rewrite (bool_decide_eq_true_2 (a_statusCode err = a_statusCode err)) by done.
  rewrite (bool_decide_eq_true_2 (a_category err = a_category err)) by done.
  rewrite (bool_decide_eq_true_2 (a_subCategory err = a_subCategory err)) by done.
  by rewrite !orb_true_r, !andb_true_r.
Qed.

End ApiErrorsFacts.

Lemma statusMessage_by_range_witness :
  (ApiErrors.statusMessage (Line := unit)
     (ApiErrors.mkStatusCodeError None (Some 418%Z) None None None)
     (ApiErrors.mkContext None None None None) None (str "request") false false).1
  ∈ ["errors.api.codes.400"; "errors.api.codes.401"; "errors.api.codes.403";
     "errors.api.codes.403MissingScope"; "errors.api.codes.403Gating";
     "errors.api.codes.404"; "errors.api.codes.404Request";
     "errors.api.codes.429"; "errors.api.codes.400Generic"]%string.
Proof.
  exact (statusMessage_by_range (Line := unit)
           (ApiErrors.mkStatusCodeError None (Some 418%Z) None None None)
           (ApiErrors.mkContext None None None None) None (str "request")
           false false 418%Z eq_refl).
Defined.

(** ** [flattenAndRemoveSymlinks] *)

Section FsReadFacts.
Context `{!StatTypes}.
Import FsRead.

Implicit Types (l : list FileData) (acc : list jsstring).

Lemma flatten_step_acc acc fileData :
  flatten_step acc fileData = acc ++ contribution fileData.
Proof.
  unfold contribution, flatten_step.
  repeat case_bool_decide; simpl; by rewrite ?app_nil_r.
Qed.

Lemma fold_flatten_step l : ∀ acc,
  fold_left flatten_step l acc = acc ++ (l ≫= contribution).
Proof.
  induction l as [|x l IH]; intros acc; simpl; [by rewrite app_nil_r|].
  by rewrite IH, flatten_step_acc, <- app_assoc.
Qed.

(** X24: [flattenAndRemoveSymlinks] of two lists one after the other is the
    result for the first followed by the result for the second: each entry
    contributes on its own, in order. *)
Theorem flattenAndRemoveSymlinks_app l1 l2 :
  flattenAndRemoveSymlinks (l1 ++ l2)
  = flattenAndRemoveSymlinks l1 ++ flattenAndRemoveSymlinks l2.
Proof.
  unfold flattenAndRemoveSymlinks. rewrite !fold_flatten_step. simpl.
  by rewrite bind_app.
Qed.

(** X25: a path is in the result of [flattenAndRemoveSymlinks] exactly when it
    is the path of an entry of type [FILE] or is listed in the [files] of an
    entry of type [DIRECTORY]; symbolic links and entries of any other type
    add nothing, nor does the path of a directory itself. *)
Theorem flattenAndRemoveSymlinks_elem l (p : jsstring) :
  p ∈ flattenAndRemoveSymlinks l
  ↔ ∃ fileData, fileData ∈ l
      ∧ ((type fileData = FILE ∧ p = filepath fileData)
         ∨ (type fileData ≠ FILE ∧ type fileData = DIRECTORY
            ∧ p ∈ default [] (files fileData))).
Proof.
  unfold flattenAndRemoveSymlinks. rewrite fold_flatten_step. simpl.
  rewrite list_elem_of_bind. split.
  - intros (fd & Hp & Hin). exists fd. split; [done|].
    unfold contribution, flatten_step in Hp.
    repeat case_bool_decide; simpl in Hp.
    + left. apply list_elem_of_singleton in Hp. done.
    + right. by destruct (files fd).
    + by apply elem_of_nil in Hp.
    + by apply elem_of_nil in Hp.
  - intros (fd & Hin & Hcase). exists fd. split; [|done].
    unfold contribution, flatten_step.
    destruct Hcase as [[Hf ->]|(Hnf & Hd & Hp)].
    + rewrite bool_decide_eq_true_2 by done. simpl. by apply list_elem_of_singleton.
    + rewrite bool_decide_eq_false_2, bool_decide_eq_true_2 by done.
      simpl. by destruct (files fd).
Qed.

End FsReadFacts.

Lemma validate_as_specified_witness :
  CLIConfiguration.validate (Some (parsed_of SampleMore.two_accounts))
  = valid_as_specified (Some (parsed_of SampleMore.two_accounts)).
Proof.
  apply validate_as_specified.
  intros c l a nm [= <-] [= <-] Hin Hnm Hk.
  assert (Hnames : nm = str "dev" ∨ nm = str "prod").
  { simpl in Hin. rewrite !elem_of_cons in Hin.
    destruct Hin as [Ha|[Ha|Hin]]; [| |by apply elem_of_nil in Hin];
      injection Ha as ->; simpl in Hnm; injection Hnm as <-; auto. }
  destruct Hnames as [-> | ->]; vm_compute in Hk;
    repeat (apply elem_of_cons in Hk as [Hk|Hk]; [discriminate Hk|]);
    by apply elem_of_nil in Hk.
Defined.
